(** * glirc Lua extension bridge (lua-extension/glirc-lua.c)

    A shallow embedding of the C bridge between the glirc host and an
    embedded Lua 5.3 interpreter, and the properties of its entry points
    [start], [stop_entrypoint], [message_entrypoint], [chat_entrypoint]
    and [command_entrypoint].

    The C functions of the file are written in a small state-and-error
    monad over the interpreter state; the Lua C API calls they make are
    defined after the Lua 5.3 reference manual.  What lives outside the
    file (the user's script, the file system, libc's [dirname], the host
    services of glirc-api.h, the marshalling of glirc-marshal.h and the
    library of glirc-lib.h) is gathered in one [environment] class.

    Scripts are taken to terminate: running script code gives its
    results or the error it raised.  Failure to allocate is followed
    where the file checks for it, in [luaL_newstate]; the limits of the
    Lua stack and of the C stack are not part of the model. *)

From Stdlib Require Import ZArith String Ascii List Lia.
From stdpp Require Import base option list gmap strings pretty.
Import ListNotations.

Local Open Scope string_scope.
Local Open Scope Z_scope.

(** ** Values of the interpreter *)

(** The two C functions of the bridge that are handed to the interpreter
    with [lua_pushcfunction]. *)
Inductive cfunction : Type :=
| initialize_lua_fn
| callback_worker_fn.

(** A Lua value.  Tables, closures, full userdata and coroutines are
    references; a float is the 64 bits of its double. *)
Inductive value : Type :=
| LNil
| LBool (b : bool)
| LLight (p : Z)
| LInt (n : Z)
| LFlt (bits : Z)
| LStr (s : string)
| LTab (r : nat)
| LFun (f : nat)
| LCFun (c : cfunction)
| LUData (u : nat)
| LThread (t : nat).

(** Type tags of lua.h. *)
Definition LUA_TNONE : Z := -1.
Definition LUA_TNIL : Z := 0.
Definition LUA_TBOOLEAN : Z := 1.
Definition LUA_TLIGHTUSERDATA : Z := 2.
Definition LUA_TNUMBER : Z := 3.
Definition LUA_TSTRING : Z := 4.
Definition LUA_TTABLE : Z := 5.
Definition LUA_TFUNCTION : Z := 6.
Definition LUA_TUSERDATA : Z := 7.
Definition LUA_TTHREAD : Z := 8.

Definition type_of (v : value) : Z :=
  match v with
  | LNil => LUA_TNIL
  | LBool _ => LUA_TBOOLEAN
  | LLight _ => LUA_TLIGHTUSERDATA
  | LInt _ | LFlt _ => LUA_TNUMBER
  | LStr _ => LUA_TSTRING
  | LTab _ => LUA_TTABLE
  | LFun _ | LCFun _ => LUA_TFUNCTION
  | LUData _ => LUA_TUSERDATA
  | LThread _ => LUA_TTHREAD
  end.

(** [lua_typename]. *)
Definition typename (t : Z) : string :=
  if t =? LUA_TNIL then "nil"
  else if t =? LUA_TBOOLEAN then "boolean"
  else if t =? LUA_TLIGHTUSERDATA then "userdata"
  else if t =? LUA_TNUMBER then "number"
  else if t =? LUA_TSTRING then "string"
  else if t =? LUA_TTABLE then "table"
  else if t =? LUA_TFUNCTION then "function"
  else if t =? LUA_TUSERDATA then "userdata"
  else if t =? LUA_TTHREAD then "thread"
  else "no value".

Definition is_function (v : value) : bool :=
  match v with LFun _ | LCFun _ => true | _ => false end.

Definition is_nil (v : value) : bool :=
  match v with LNil => true | _ => false end.

(** Lua truth: everything but [nil] and [false]. *)
Definition truthy (v : value) : bool :=
  match v with LNil | LBool false => false | _ => true end.

(** A table: its raw contents ([nil] for an absent key) and its
    metatable. *)
Record table : Type := mkTable {
  tget : value -> value;
  tmeta : option nat
}.

Definition empty_table : table := mkTable (fun _ => LNil) None.

Definition rawset_int (t : table) (i : Z) (v : value) : table :=
  mkTable (fun k => match k with
                    | LInt j => if j =? i then v else tget t k
                    | _ => tget t k
                    end) (tmeta t).

Definition rawset_str (t : table) (s : string) (v : value) : table :=
  mkTable (fun k => match k with
                    | LStr s' => if String.eqb s' s then v else tget t k
                    | _ => tget t k
                    end) (tmeta t).

(** ** C strings *)

(** What a [const char *] consumer sees of a byte string: the bytes
    before the first NUL. *)
Fixpoint cstring (s : string) : string :=
  match s with
  | EmptyString => EmptyString
  | String c s' => if Ascii.eqb c Ascii.zero then EmptyString
                   else String c (cstring s')
  end.

(** ** Host side *)

(** [struct glirc *]: the opaque host token, an address. *)
Definition glirc : Type := Z.

(** [enum message_code] and [enum process_result] of glirc-api.h. *)
Inductive message_code : Type := NORMAL_MESSAGE | ERROR_MESSAGE.
Inductive process_result : Type := PASS_MESSAGE | DROP_MESSAGE.

Definition LUA_OK : Z := 0.
Definition LUA_ERRRUN : Z := 2.

(** [MAXTAGLOOP] of lvm.c. *)
Definition MAXTAGLOOP : nat := 2000.

(** The types the bridge is parametric in: the interpreter state it
    never looks at (upvalues, coroutines, the collector, ...), the calls
    a script makes into the host through the glirc library, and the
    event payloads of glirc-api.h, which the bridge only passes on. *)
Class host_types : Type := mkTypes {
  U : Type;
  host_call : Type;
  glirc_message : Type;
  glirc_chat : Type;
  glirc_command : Type
}.

Section Bridge.

Context {V : host_types}.

(** ** Interpreter state *)

(** Everything of a [lua_State] but the stack of the running C
    function. *)
Record heap : Type := mkHeap {
  tables : gmap nat table;       (* the table store *)
  registry : value -> value;     (* the registry table, raw *)
  basic_meta : value -> option nat; (* metatable of a value that is not a table *)
  extraspace : option glirc;     (* lua_getextraspace *)
  hidden : U
}.

Record lua_State : Type := mkState {
  stack : list value;            (* index 1 first *)
  mem : heap
}.

(** What the host and the outside world observe. *)
Inductive event : Type :=
| EvPrint (G : glirc) (code : message_code) (msg : option string)
    (* glirc_print by the bridge; [None] is a NULL message of length 0 *)
| EvLoadFile (path : string)     (* luaL_loadfile reads a file *)
| EvCall (f : value) (args : list value) (h : heap)
    (* control enters script code, with the heap it finds *)
| EvScript (c : host_call)       (* the script calls into the host *)
| EvClose.                       (* lua_close *)

(** Outcome of running script code: either its results or the error
    value it raised, with the heap it leaves and the host calls it
    made. *)
Inductive exec_outcome : Type :=
| Returns (rs : list value) (h : heap) (cs : list host_call)
| Throws (e : value) (h : heap) (cs : list host_call).

(** What the bridge takes from outside the file. *)
Class environment : Type := mkEnv {
  (* the interpreter running a callable value on arguments *)
  exec : value -> list value -> heap -> exec_outcome;
  (* lua_Number2str, the "%.14g" rendering of a float *)
  lua_Number2str : Z -> string;
  (* the file system as luaL_loadfile sees it: a chunk or a message *)
  loadfile : string -> value + string;
  (* luaL_checkversion: the message it raises, if any *)
  version_error : option string;
  (* luaL_newstate: whether the allocator delivers *)
  newstate_ok : bool;
  hidden0 : U;
  (* what luaL_openlibs and glirc-lib.h's glirc_install_lib do to the heap *)
  std_libs : heap -> heap;
  glirc_lib : heap -> heap;
  LUA_EXTRASPACE : Z;
  sizeof_glirc_ptr : Z;
  (* address of the static glirc_callback_module_key *)
  glirc_callback_module_key : Z;
  (* libc *)
  dirname : string -> string;
  (* glirc-api.h *)
  glirc_resolve_path : glirc -> string -> string;
  (* glirc-marshal.h: each builds one value in the heap *)
  marshal_message : glirc_message -> heap -> heap * value;
  marshal_chat : glirc_chat -> heap -> heap * value;
  marshal_command : glirc_command -> heap -> heap * value
}.

Context {E : environment}.

(** ** The monad of C code that talks to the interpreter *)

(** A step either completes, or leaves by a Lua error (longjmp to the
    nearest protected call), or breaks the preconditions of the C API
    (undefined behaviour). *)
Inductive res (A : Type) : Type :=
| Done (a : A) (L : lua_State) (tr : list event)
| Raised (e : value) (L : lua_State) (tr : list event)
| Fault (tr : list event).

Arguments Done {A} a L tr.
Arguments Raised {A} e L tr.
Arguments Fault {A} tr.

Definition lua (A : Type) : Type := lua_State -> res A.

Definition ret {A : Type} (a : A) : lua A := fun L => Done a L [].

(** The events so far, put before those of what follows. *)
Definition with_trace {A : Type} (t : list event) (r : res A) : res A :=
  match r with
  | Done a L t' => Done a L (t ++ t')
  | Raised e L t' => Raised e L (t ++ t')
  | Fault t' => Fault (t ++ t')
  end.

Definition bind {A B : Type} (m : lua A) (k : A -> lua B) : lua B :=
  fun L =>
    match m L with
    | Done a L1 t1 => with_trace t1 (k a L1)
    | Raised e L1 t1 => Raised e L1 t1
    | Fault t1 => Fault t1
    end.

Notation "'do' x <- m ; k" := (bind m (fun x => k))
  (at level 10, x name, m at level 100, k at level 200).
Notation "m >>> k" := (bind m (fun _ => k))
  (at level 100, k at level 200, right associativity).

Definition raise {A : Type} (e : value) : lua A := fun L => Raised e L [].
Definition fault {A : Type} : lua A := fun _ => Fault [].
Definition emit (ev : event) : lua unit := fun L => Done tt L [ev].
Definition get_stack : lua (list value) := fun L => Done (stack L) L [].
Definition set_stack (s : list value) : lua unit :=
  fun L => Done tt (mkState s (mem L)) [].
Definition get_mem : lua heap := fun L => Done (mem L) L [].
Definition set_mem (h : heap) : lua unit :=
  fun L => Done tt (mkState (stack L) h) [].

(** ** The stack of the running C function *)

(** Position in the stack list of a valid index: positive indices count
    from the bottom (1 first), negative ones from the top (-1 last). *)
Definition abs_index (s : list value) (idx : Z) : option nat :=
  let n := Z.of_nat (length s) in
  if (0 <? idx) && (idx <=? n) then Some (Z.to_nat (idx - 1))
  else if (idx <? 0) && (- n <=? idx) then Some (Z.to_nat (n + idx))
  else None.

(** The value at a valid index; any other index breaks the API. *)
Definition value_at (idx : Z) : lua value :=
  fun L =>
    match abs_index (stack L) idx with
    | Some i => match stack L !! i with
                | Some v => Done v L []
                | None => Fault []
                end
    | None => Fault []
    end.

(** The value at an acceptable index: a positive index above the top
    holds no value. *)
Definition value_opt (idx : Z) : lua (option value) :=
  fun L =>
    if 0 <? idx then Done (stack L !! Z.to_nat (idx - 1)) L []
    else match abs_index (stack L) idx with
         | Some i => Done (stack L !! i) L []
         | None => Fault []
         end.

Definition push (v : value) : lua unit :=
  fun L => Done tt (mkState (stack L ++ [v]) (mem L)) [].

Definition pop : lua value :=
  fun L =>
    match last (stack L) with
    | Some v => Done v (mkState (removelast (stack L)) (mem L)) []
    | None => Fault []
    end.

Definition lua_gettop : lua Z :=
  fun L => Done (Z.of_nat (length (stack L))) L [].

Definition lua_settop (idx : Z) : lua unit :=
  fun L =>
    let n := if 0 <=? idx then idx else Z.of_nat (length (stack L)) + idx + 1 in
    if n <? 0 then Fault []
    else Done tt (mkState (take (Z.to_nat n)
                             (stack L ++ replicate (Z.to_nat n) LNil))
                          (mem L)) [].

(** [lua_rotate]: the slice from [idx] to the top is rotated [n]
    positions towards the top ([- n] towards the bottom when [n] is
    negative); [|n|] must not exceed the size of the slice. *)
Definition lua_rotate (idx n : Z) : lua unit :=
  fun L =>
    match abs_index (stack L) idx with
    | Some p =>
        let seg := drop p (stack L) in
        let m := Z.of_nat (length seg) in
        if Z.abs n <=? m then
          let k := Z.to_nat (if 0 <=? n then m - n else - n) in
          Done tt (mkState (take p (stack L) ++ drop k seg ++ take k seg)
                           (mem L)) []
        else Fault []
    | None => Fault []
    end.

Definition lua_insert (idx : Z) : lua unit := lua_rotate idx 1.

Definition lua_pushstring (s : string) : lua unit := push (LStr (cstring s)).
Definition lua_pushlstring (s : string) : lua unit := push (LStr s).
Definition lua_pushliteral (s : string) : lua unit := push (LStr s).
Definition lua_pushcfunction (c : cfunction) : lua unit := push (LCFun c).

Definition lua_type (idx : Z) : lua Z :=
  do v <- value_opt idx;
  ret (match v with Some v => type_of v | None => LUA_TNONE end).

Definition lua_toboolean (idx : Z) : lua bool :=
  do v <- value_opt idx;
  ret (match v with Some v => truthy v | None => false end).

(** [lua_tolstring]: a string is returned as it is, a number is turned
    into a string in its stack slot, and anything else gives NULL with
    length 0. *)
Definition tostring_value (v : value) : option string :=
  match v with
  | LStr s => Some s
  | LInt n => Some (pretty n)
  | LFlt b => Some (lua_Number2str b)
  | _ => None
  end.

Definition lua_tolstring (idx : Z) : lua (option string) :=
  fun L =>
    let pos := if 0 <? idx then Some (Z.to_nat (idx - 1))
               else abs_index (stack L) idx in
    match pos with
    | None => Fault []
    | Some i =>
        match stack L !! i with
        | None => Done None L []
        | Some v =>
            match tostring_value v with
            | Some s => Done (Some s) (mkState (<[i := LStr s]> (stack L)) (mem L)) []
            | None => Done None L []
            end
        end
    end.

(** ** The heap *)

Definition set_tables (h : heap) (ts : gmap nat table) : heap :=
  mkHeap ts (registry h) (basic_meta h) (extraspace h) (hidden h).

Definition set_registry (h : heap) (g : value -> value) : heap :=
  mkHeap (tables h) g (basic_meta h) (extraspace h) (hidden h).

Definition set_extraspace (h : heap) (G : glirc) : heap :=
  mkHeap (tables h) (registry h) (basic_meta h) (Some G) (hidden h).

(** A reference the store does not know reads as an empty table. *)
Definition table_of (h : heap) (r : nat) : table :=
  default empty_table (tables h !! r).

(** [LUA_RIDX_GLOBALS]: where the registry keeps the table of
    globals; [luaL_newstate] puts that table at reference 0. *)
Definition LUA_RIDX_GLOBALS : Z := 2.

Definition new_heap : heap :=
  mkHeap {[ 0%nat := empty_table ]}
         (fun k => match k with
                   | LInt i => if i =? LUA_RIDX_GLOBALS then LTab 0 else LNil
                   | _ => LNil
                   end)
         (fun _ => None) None hidden0.

(** The state [luaL_newstate] returns. *)
Definition new_state : lua_State := mkState [] new_heap.

Definition getmetatable (h : heap) (v : value) : option nat :=
  match v with
  | LTab r => tmeta (table_of h r)
  | _ => basic_meta h v
  end.

(** [luaT_gettmbyobj]: the metamethod of [v] for an event, [nil] when
    there is none. *)
Definition luaT_gettmbyobj (h : heap) (v : value) (ev : string) : value :=
  match getmetatable h v with
  | Some m => tget (table_of h m) (LStr ev)
  | None => LNil
  end.

Definition lua_createtable (narr nrec : Z) : lua unit :=
  fun L =>
    let r := fresh (dom (tables (mem L))) in
    Done tt (mkState (stack L ++ [LTab r])
                     (set_tables (mem L) (<[r := empty_table]> (tables (mem L)))))
         [].

(** [t[i] = v] without metamethods, [t] at [idx] and [v] on top. *)
Definition lua_rawseti (idx i : Z) : lua unit :=
  do t <- value_at idx;
  do v <- pop;
  match t with
  | LTab r =>
      do h <- get_mem;
      set_mem (set_tables h (<[r := rawset_int (table_of h r) i v]> (tables h)))
  | _ => fault
  end.

(** [lua_rawsetp] and [lua_rawgetp] at [LUA_REGISTRYINDEX]: the key is
    the light userdata of the address [p]. *)
Definition lua_rawsetp_registry (p : Z) : lua unit :=
  do v <- pop;
  do h <- get_mem;
  set_mem (set_registry h (fun k => match k with
                                    | LLight q => if q =? p then v else registry h k
                                    | _ => registry h k
                                    end)).

Definition lua_rawgetp_registry (p : Z) : lua unit :=
  do h <- get_mem;
  push (registry h (LLight p)).

(** ** Calls and metamethods *)

(** Work of the interpreter proper runs on the heap alone: it cannot
    see the stack of the C function that asked for it, and it either
    completes or raises an error. *)
Inductive hres (A : Type) : Type :=
| HDone (a : A) (h : heap) (tr : list event)
| HRaised (e : value) (h : heap) (tr : list event).

Arguments HDone {A} a h tr.
Arguments HRaised {A} e h tr.

Definition interp (A : Type) : Type := heap -> hres A.

Definition lift {A : Type} (m : interp A) : lua A :=
  fun L =>
    match m (mem L) with
    | HDone a h tr => Done a (mkState (stack L) h) tr
    | HRaised e h tr => Raised e (mkState (stack L) h) tr
    end.

(** [luaT_objtypename] (ltm.c, as from Lua 5.3.3): the name of a value
    in an error message is the string under [__name] in its metatable
    when the value is a table or a full userdata that has one, and the
    name of its type otherwise.  The name is printed with "%s", as a C
    string. *)
Definition luaT_objtypename (h : heap) (v : value) : string :=
  match v with
  | LTab _ | LUData _ =>
      match getmetatable h v with
      | Some m =>
          match tget (table_of h m) (LStr "__name") with
          | LStr s => cstring s
          | _ => typename (type_of v)
          end
      | None => typename (type_of v)
      end
  | _ => typename (type_of v)
  end.

(** [luaG_typeerror], raised from a C function: no variable
    information is added to the message. *)
Definition luaG_typeerror {A : Type} (v : value) (op : string) : interp A :=
  fun h =>
    HRaised (LStr ("attempt to " ++ op ++ " a " ++ luaT_objtypename h v
                   ++ " value")) h [].

(** The interpreter runs a function value.  A C function of the bridge
    that script code got hold of and that is called from inside the
    interpreter is run by [exec] like any other function. *)
Definition call_function (f : value) (args : list value)
  : interp (list value) :=
  fun h =>
    match exec f args h with
    | Returns rs h' cs => HDone rs h' (EvCall f args h :: map EvScript cs)
    | Throws e h' cs => HRaised e h' (EvCall f args h :: map EvScript cs)
    end.

(** [luaD_call]: a value that is not a function is called through its
    [__call] metamethod. *)
Definition luaD_call (f : value) (args : list value) : interp (list value) :=
  fun h =>
    if is_function f then call_function f args h
    else
      let tm := luaT_gettmbyobj h f "__call" in
      if is_function tm then call_function tm (f :: args) h
      else luaG_typeerror f "call" h.

(** Results adjusted to the number the caller asked for; a negative
    number is [LUA_MULTRET]. *)
Definition adjust (nresults : Z) (rs : list value) : list value :=
  if nresults <? 0 then rs
  else take (Z.to_nat nresults) (rs ++ replicate (Z.to_nat nresults) LNil).

(** The function and the arguments a call finds on the stack. *)
Definition call_frame (s : list value) (nargs : Z)
  : option (list value * value * list value) :=
  if nargs <? 0 then None
  else
    let n := Z.to_nat nargs in
    if (length s <? n + 1)%nat then None
    else
      let base := (length s - (n + 1))%nat in
      match s !! base with
      | Some f => Some (take base s, f, drop (base + 1) s)
      | None => None
      end.

Definition lua_call (nargs nresults : Z) : lua unit :=
  do s <- get_stack;
  match call_frame s nargs with
  | Some (below, f, args) =>
      do rs <- lift (luaD_call f args);
      set_stack (below ++ adjust nresults rs)
  | None => fault
  end.

(** [luaV_fastget]: [t] is a table that holds a value under the key. *)
Definition fastget (h : heap) (t key : value) : option value :=
  match t with
  | LTab r => let v := tget (table_of h r) key in
              if is_nil v then None else Some v
  | _ => None
  end.

(** A metamethod called for one result. *)
Definition first_result (r : hres (list value)) : hres value :=
  match r with
  | HDone rs h tr => HDone (hd LNil rs) h tr
  | HRaised e h tr => HRaised e h tr
  end.

(** [luaV_finishget] of Lua 5.3. *)
Fixpoint luaV_finishget (loop : nat) (t key : value) : interp value :=
  fun h =>
    match loop with
    | O => HRaised (LStr "'__index' chain too long; possibly a loop") h []
    | S loop' =>
        let tm := luaT_gettmbyobj h t "__index" in
        if is_nil tm then
          match t with
          | LTab _ => HDone LNil h []
          | _ => luaG_typeerror t "index" h
          end
        else if is_function tm then
          first_result (call_function tm [t; key] h)
        else
          match fastget h tm key with
          | Some v => HDone v h []
          | None => luaV_finishget loop' tm key h
          end
    end.

Definition luaV_gettable (t key : value) : interp value :=
  fun h =>
    match fastget h t key with
    | Some v => HDone v h []
    | None => luaV_finishget MAXTAGLOOP t key h
    end.

(** [lua_gettable]: the key on top is replaced by [t[key]], [t] at
    [idx]; returns the type of the value. *)
Definition lua_gettable (idx : Z) : lua Z :=
  do t <- value_at idx;
  do k <- pop;
  do v <- lift (luaV_gettable t k);
  push v >>>
  ret (type_of v).

Definition rawset_field (h : heap) (r : nat) (key : string) (v : value) : heap :=
  set_tables h (<[r := rawset_str (table_of h r) key v]> (tables h)).

(** A metamethod called for no result. *)
Definition no_result (r : hres (list value)) : hres unit :=
  match r with
  | HDone _ h tr => HDone tt h tr
  | HRaised e h tr => HRaised e h tr
  end.

(** [luaV_finishset] of Lua 5.3, for a string key. *)
Fixpoint luaV_finishset (loop : nat) (t : value) (key : string) (v : value)
  : interp unit :=
  fun h =>
    match loop with
    | O => HRaised (LStr "'__newindex' chain too long; possibly a loop") h []
    | S loop' =>
        let tm := luaT_gettmbyobj h t "__newindex" in
        if is_nil tm then
          match t with
          | LTab r => HDone tt (rawset_field h r key v) []
          | _ => luaG_typeerror t "index" h
          end
        else if is_function tm then
          no_result (call_function tm [t; LStr key; v] h)
        else
          match fastget h tm (LStr key), tm with
          | Some _, LTab r' => HDone tt (rawset_field h r' key v) []
          | _, _ => luaV_finishset loop' tm key v h
          end
    end.

Definition luaV_settable (t : value) (key : string) (v : value) : interp unit :=
  fun h =>
    match fastget h t (LStr key), t with
    | Some _, LTab r => HDone tt (rawset_field h r key v) []
    | _, _ => luaV_finishset MAXTAGLOOP t key v h
    end.

Definition lua_setglobal (name : string) : lua unit :=
  do v <- pop;
  do h <- get_mem;
  lift (luaV_settable (registry h (LInt LUA_RIDX_GLOBALS)) name v).

(** [lua_error]: the value on top is raised. *)
Definition lua_error {A : Type} : lua A :=
  do v <- pop;
  raise v.

(** ** The auxiliary library *)

Definition luaL_checkversion : lua unit :=
  match version_error with
  | Some m => raise (LStr m)
  | None => ret tt
  end.

(** [luaL_argerror] for a function without a name. *)
Definition luaL_typeerror {A : Type} (arg : Z) (tname : string) : lua A :=
  do t <- lua_type arg;
  raise (LStr ("bad argument #" ++ pretty arg ++ " to '?' (" ++ tname
               ++ " expected, got " ++ typename t ++ ")")).

Definition luaL_checktype (arg t : Z) : lua unit :=
  do ty <- lua_type arg;
  if ty =? t then ret tt else luaL_typeerror arg (typename t).

Definition luaL_checkstring (arg : Z) : lua string :=
  do s <- lua_tolstring arg;
  match s with
  | Some s => ret s
  | None => luaL_typeerror arg "string"
  end.

Definition LUA_ERRFILE : Z := 7.

(** [luaL_loadfile]: the file name is a C string; the chunk, or the
    message, is pushed. *)
Definition luaL_loadfile (filename : string) : lua Z :=
  emit (EvLoadFile (cstring filename)) >>>
  match loadfile (cstring filename) with
  | inl chunk => push chunk >>> ret LUA_OK
  | inr msg => push (LStr msg) >>> ret LUA_ERRFILE
  end.

Definition luaL_openlibs : lua unit :=
  do h <- get_mem; set_mem (std_libs h).

Definition glirc_install_lib : lua unit :=
  do h <- get_mem; set_mem (glirc_lib h).

(** Modelled from the spec: get_glirc of glirc-lib.h, which is not in
    this file; the spec has the host token stored once in the extra
    space of the interpreter, and this reads it back. *)
Definition get_glirc : lua glirc :=
  do h <- get_mem;
  match extraspace h with
  | Some G => ret G
  | None => fault
  end.

(** Modelled from the spec: glirc_print of glirc-api.h, the diagnostic
    sink [report(severity, message)] of the host; a call is recorded
    with its message, [None] for a NULL pointer (the length is then
    0). *)
Definition glirc_print (G : glirc) (code : message_code) (msg : option string)
  : lua unit :=
  emit (EvPrint G code msg).

(** [lua_close]; the finalisers it may run are not followed. *)
Definition lua_close : lua unit := emit EvClose.

(** Modelled from the spec: push_glirc_string of glirc-marshal.h, which
    is not in this file; the spec has the [arg] array hold the strings
    of argv, so the bytes of the [glirc_string] are pushed as one Lua
    string. *)
Definition push_glirc_string (s : string) : lua unit := lua_pushlstring s.

Definition push_marshalled (m : heap -> heap * value) : lua unit :=
  do h <- get_mem;
  set_mem (m h).1 >>>
  push (m h).2.

Definition push_glirc_message (msg : glirc_message) : lua unit :=
  push_marshalled (marshal_message msg).
Definition push_glirc_chat (chat : glirc_chat) : lua unit :=
  push_marshalled (marshal_chat chat).
Definition push_glirc_command (cmd : glirc_command) : lua unit :=
  push_marshalled (marshal_command cmd).

(** ** glirc-lua.c *)

(** [initialize_lua] up to the point where the user's script is about to
    be called (lines 30 to 47 of the file). *)
Definition initialize_lua_setup : lua unit :=
  (* Validate dynamic library Lua version *)
  luaL_checkversion >>>
  (* Validate function arguments *)
  luaL_checktype 1 LUA_TTABLE >>>
  do scriptpath <- luaL_checkstring 2;
  luaL_checktype 3 LUA_TNONE >>>        (* STACK: arg scriptpath *)
  (* Load user script *)
  do status <- luaL_loadfile scriptpath; (* STACK: arg scriptpath script *)
  (if status =? 0 then ret tt else lua_error) >>>
  lua_insert 1 >>>                      (* STACK: script arg scriptpath *)
  lua_rawseti (-2) 0 >>>                (* STACK: script arg *)
  lua_setglobal "arg" >>>               (* STACK: script *)
  (* Initialize libraries *)
  luaL_openlibs >>>
  glirc_install_lib.

Definition initialize_lua : lua Z :=
  initialize_lua_setup >>>
  (* Execute user script *)
  lua_call 0 1 >>>                      (* STACK: module *)
  lua_rawsetp_registry glirc_callback_module_key >>> (* STACK: *)
  ret 0.

Definition callback_worker : lua Z :=
  do n <- lua_gettop;                                    (* name args... *)
  lua_rawgetp_registry glirc_callback_module_key >>> (* name args... ext *)
  lua_insert 1 >>>                                       (* ext name args... *)
  lua_rotate 2 (-1) >>>                                  (* ext args... name *)
  do ty <- lua_gettable 1;                               (* ext args... callback/nil *)
  (if ty =? LUA_TNIL then ret tt
   else lua_insert 1 >>>                                 (* callback ext args... *)
        lua_call n 1) >>>                                (* result *)
  ret 1.                                                 (* result/nil *)

Definition cfunction_body (c : cfunction) : lua Z :=
  match c with
  | initialize_lua_fn => initialize_lua
  | callback_worker_fn => callback_worker
  end.

(** ** Protected calls *)

(** A C function of the bridge runs on a stack of its own that holds its
    arguments; it returns the number of results, which are the topmost
    values of that stack. *)
Definition run_cfunction (c : cfunction) (args : list value)
  : lua (list value) :=
  fun L =>
    match cfunction_body c (mkState args (mem L)) with
    | Done n L' tr =>
        if (0 <=? n) && (n <=? Z.of_nat (length (stack L'))) then
          Done (drop (length (stack L') - Z.to_nat n) (stack L'))
               (mkState (stack L) (mem L')) tr
        else Fault tr
    | Raised e L' tr => Raised e (mkState (stack L) (mem L')) tr
    | Fault tr => Fault tr
    end.

(** [lua_pcall] without a message handler: the function and its
    arguments are replaced by the adjusted results and [LUA_OK] is
    returned, or by the error value and an error status.  The bridge's
    own C functions are run from their definitions above; any other
    callee is the interpreter's business. *)
Definition lua_pcall (nargs nresults : Z) : lua Z :=
  fun L =>
    match call_frame (stack L) nargs with
    | Some (below, f, args) =>
        let callee := match f with
                      | LCFun c => run_cfunction c args
                      | _ => lift (luaD_call f args)
                      end in
        match callee L with
        | Done rs L' tr =>
            Done LUA_OK (mkState (below ++ adjust nresults rs) (mem L')) tr
        | Raised e L' tr =>
            Done LUA_ERRRUN (mkState (below ++ [e]) (mem L')) tr
        | Fault tr => Fault tr
        end
    | None => Fault []
    end.

Definition lua_tostring (idx : Z) : lua (option string) := lua_tolstring idx.

(** ** Entry points *)

(** What the host gets back from an entry point: the returned value,
    the interpreter the host's instance pointer now stands for ([None]:
    a NULL pointer, or an interpreter that has been closed) and the
    events of the call.  [Crash] is undefined behaviour or a Lua panic. *)
Inductive entry (A : Type) : Type :=
| Exit (a : A) (inst : option lua_State) (tr : list event)
| Crash (tr : list event).

Arguments Exit {A} a inst tr.
Arguments Crash {A} tr.

Definition entry_trace {A : Type} (r : entry A) : list event :=
  match r with Exit _ _ tr => tr | Crash tr => tr end.

Definition run_entry {A : Type} (m : lua A) (L : lua_State) : entry A :=
  match m L with
  | Done a L' tr => Exit a (Some L') tr
  | Raised _ _ tr => Crash tr
  | Fault tr => Crash tr
  end.

(** Push path to glirc.lua which should be in the same directory as the
    given path to the extension shared library. *)
Definition push_scriptname (path : string) (args : list string) : lua unit :=
  match args with
  | [] =>
      (* When no arguments are provided, default to glirc.lua *)
      let dir_part := dirname (cstring path) in
      push (LStr (cstring dir_part ++ "/glirc.lua"))
  | arg0 :: _ =>
      do G <- get_glirc;
      let script := glirc_resolve_path G arg0 in
      lua_pushstring script
  end.

(** The loop of [start] over [args[1]], ..., [args[args_len - 1]]. *)
Fixpoint start_fill (rest : list string) : lua unit :=
  match rest with
  | [] => ret tt
  | a :: rest' =>
      push_glirc_string a >>>
      lua_rawseti (-2) 1 >>>
      start_fill rest'
  end.

(** The body of [start] once the interpreter exists: [None] stands for
    [return L], [Some err] for [goto cleanup] with that message. *)
Definition start_body (G : glirc) (path : string) (args : list string)
  : lua (option (option string)) :=
  (* Store glirc token in extra space, used for re-entry into glirc *)
  (do h <- get_mem; set_mem (set_extraspace h G)) >>>
  lua_pushcfunction initialize_lua_fn >>>
  let args_len := Z.of_nat (length args) in
  lua_createtable (if 1 <? args_len then args_len - 1 else 0) 1 >>>
  start_fill (drop 1 args) >>>
  push_scriptname path args >>>
  do status <- lua_pcall 2 0;
  if status =? 0 then ret None
  else do err <- lua_tostring (-1); ret (Some err).

(** The [cleanup] label of [start]: [strlen] of a NULL message is
    undefined. *)
Definition cleanup (G : glirc) (err : option string) (L : option lua_State)
  : entry unit :=
  match err with
  | Some e =>
      Exit tt None
        (EvPrint G ERROR_MESSAGE (Some (cstring e))
         (* close *after* printing error. Error could be on stack *)
         :: (match L with Some _ => [EvClose] | None => [] end))
  | None => Crash []
  end.

Definition prepend {A : Type} (tr : list event) (r : entry A) : entry A :=
  match r with
  | Exit a inst tr' => Exit a inst (tr ++ tr')
  | Crash tr' => Crash (tr ++ tr')
  end.

(** Start the Lua interpreter, run the script, register the first
    returned result of running the file as the callback module.  The
    returned pointer is the instance of the result. *)
Definition start (G : glirc) (path : string) (args : list string) : entry unit :=
  if LUA_EXTRASPACE <? sizeof_glirc_ptr then
    cleanup G (Some "Lua extraspace too small") None
  else if negb newstate_ok then
    cleanup G (Some "Failed to allocate Lua interpreter") None
  else
    match start_body G path args new_state with
    | Done None L tr => Exit tt (Some L) tr
    | Done (Some err) L tr => prepend tr (cleanup G err (Some L))
    | Raised _ _ tr => Crash tr
    | Fault tr => Crash tr
    end.

Definition callback (G : glirc) (nargs : Z) : lua process_result :=
                                           (* STACK: name arguments... *)
  lua_pushcfunction callback_worker_fn >>> (* STACK: name arguments... worker *)
  lua_insert 1 >>>                         (* STACK: worker name arguments... *)
  do res <- lua_pcall (1 + nargs) 1;       (* STACK: result *)
  if negb (res =? LUA_OK) then
    do msg <- lua_tolstring (-1);
    glirc_print G ERROR_MESSAGE msg >>>
    lua_settop 0 >>>                       (* discard error message *)
    ret PASS_MESSAGE
  else
    do res <- lua_toboolean 1;
    lua_settop 0 >>>
    ret (if res then DROP_MESSAGE else PASS_MESSAGE).

Definition stop_entrypoint (G : glirc) (L : option lua_State) : entry unit :=
  match L with
  | None => Exit tt None []
  | Some L =>
      match run_entry (lua_pushliteral "stop" >>>
                       callback G 0 >>>
                       lua_close) L with
      | Exit a _ tr => Exit a None tr
      | Crash tr => Crash tr
      end
  end.

Definition message_entrypoint (G : glirc) (L : option lua_State)
  (msg : glirc_message) : entry process_result :=
  match L with
  | None => Exit PASS_MESSAGE None []
  | Some L =>
      run_entry (lua_pushliteral "process_message" >>>
                 push_glirc_message msg >>>
                 callback G 1) L
  end.

Definition chat_entrypoint (G : glirc) (L : option lua_State)
  (chat : glirc_chat) : entry process_result :=
  match L with
  | None => Exit PASS_MESSAGE None []
  | Some L =>
      run_entry (lua_pushliteral "process_chat" >>>
                 push_glirc_chat chat >>>
                 callback G 1) L
  end.

Definition command_entrypoint (G : glirc) (L : option lua_State)
  (cmd : glirc_command) : entry unit :=
  match L with
  | None => Exit tt None []
  | Some L =>
      run_entry (lua_pushliteral "process_command" >>>
                 push_glirc_command cmd >>>
                 callback G 1 >>>
                 ret tt) L
  end.

(** ** The host calling through [struct glirc_extension extension] *)

Inductive host_event : Type :=
| OnMessage (msg : glirc_message)
| OnChat (chat : glirc_chat)
| OnCommand (cmd : glirc_command)
| OnStop.

(** The name the entry point pushes for the event. *)
Definition event_name (ev : host_event) : string :=
  match ev with
  | OnMessage _ => "process_message"
  | OnChat _ => "process_chat"
  | OnCommand _ => "process_command"
  | OnStop => "stop"
  end.

(** Message and chat events ask for a decision; command and stop are
    fire and forget. *)
Definition bears_decision (ev : host_event) : bool :=
  match ev with
  | OnMessage _ | OnChat _ => true
  | OnCommand _ | OnStop => false
  end.

Definition is_stop (ev : host_event) : bool :=
  match ev with OnStop => true | _ => false end.

(** The heap and the arguments after the entry point has marshalled the
    payload. *)
Definition marshalled (ev : host_event) (h : heap) : heap * list value :=
  match ev with
  | OnMessage msg => ((marshal_message msg h).1, [(marshal_message msg h).2])
  | OnChat chat => ((marshal_chat chat h).1, [(marshal_chat chat h).2])
  | OnCommand cmd => ((marshal_command cmd h).1, [(marshal_command cmd h).2])
  | OnStop => (h, [])
  end.

Definition entry_map {A B : Type} (f : A -> B) (r : entry A) : entry B :=
  match r with
  | Exit a inst tr => Exit (f a) inst tr
  | Crash tr => Crash tr
  end.

(** One call of the host into the extension; the result is the decision
    of the entry points that return one. *)
Definition handle (G : glirc) (inst : option lua_State) (ev : host_event)
  : entry (option process_result) :=
  match ev with
  | OnMessage msg => entry_map Some (message_entrypoint G inst msg)
  | OnChat chat => entry_map Some (chat_entrypoint G inst chat)
  | OnCommand cmd => entry_map (fun _ => None) (command_entrypoint G inst cmd)
  | OnStop => entry_map (fun _ => None) (stop_entrypoint G inst)
  end.

(** A sequence of calls on one instance pointer; the host calls nothing
    more on an instance once it has stopped it. *)
Fixpoint deliver (G : glirc) (evs : list host_event) (inst : option lua_State)
  : entry unit :=
  match evs with
  | [] => Exit tt inst []
  | ev :: evs' =>
      match handle G inst ev with
      | Exit _ inst' tr =>
          if is_stop ev then Exit tt inst' tr
          else prepend tr (deliver G evs' inst')
      | Crash tr => Crash tr
      end
  end.

(** ** Observations on heaps and traces *)

Definition res_trace {A : Type} (r : res A) : list event :=
  match r with Done _ _ tr => tr | Raised _ _ tr => tr | Fault tr => tr end.

Definition hres_trace {A : Type} (r : hres A) : list event :=
  match r with HDone _ _ tr => tr | HRaised _ _ tr => tr end.

Definition is_close (e : event) : bool :=
  match e with EvClose => true | _ => false end.

Definition is_report (e : event) : bool :=
  match e with EvPrint _ _ _ => true | _ => false end.

Definition is_call (e : event) : bool :=
  match e with EvCall _ _ _ => true | _ => false end.

(** Events that come from script code. *)
Definition is_script (e : event) : bool :=
  match e with EvCall _ _ _ | EvScript _ => true | _ => false end.

(** The diagnostics of a trace, in order. *)
Definition reports (tr : list event) : list event := List.filter is_report tr.

(** The script calls of a trace, in order. *)
Definition script_calls (tr : list event) : list event := List.filter is_call tr.

(** The files the loader was asked for, in order. *)
Fixpoint loaded_paths (tr : list event) : list string :=
  match tr with
  | [] => []
  | EvLoadFile p :: tr' => p :: loaded_paths tr'
  | _ :: tr' => loaded_paths tr'
  end.

(** Whether some diagnostic is reported after the interpreter has been
    closed; [closed] tells whether it already is. *)
Fixpoint report_after_close (closed : bool) (tr : list event) : bool :=
  match tr with
  | [] => false
  | EvClose :: tr' => report_after_close true tr'
  | EvPrint _ _ _ :: tr' => closed || report_after_close closed tr'
  | _ :: tr' => report_after_close closed tr'
  end.

(** A computation that never closes the interpreter. *)
Definition never_closes {A : Type} (m : lua A) : Prop :=
  forall L, Forall (fun e => is_close e = false) (res_trace (m L)).

(** A computation that emits nothing. *)
Definition silent {A : Type} (m : lua A) : Prop :=
  forall L, res_trace (m L) = [].

(** What the host holds between two calls: no instance, or one whose
    stack is empty. *)
Definition at_rest (inst : option lua_State) : Prop :=
  match inst with
  | Some L => stack L = []
  | None => True
  end.

(** The callback module of an instance: what [initialize_lua] stored
    in the registry. *)
Definition callback_module (h : heap) : value :=
  registry h (LLight glirc_callback_module_key).

(** The callback module is a table without the field, and nothing is
    inherited through an [__index] metamethod. *)
Definition no_entry (h : heap) (name : string) : Prop :=
  exists r, callback_module h = LTab r
            /\ tget (table_of h r) (LStr name) = LNil
            /\ luaT_gettmbyobj h (LTab r) "__index" = LNil.

(** A global variable as a script reads it, for a table of globals
    without metatable. *)
Definition global (h : heap) (name : string) : value :=
  match registry h (LInt LUA_RIDX_GLOBALS) with
  | LTab g => tget (table_of h g) (LStr name)
  | _ => LNil
  end.

(** [arg[i]] as a script reads it. *)
Definition arg_index (h : heap) (i : Z) : value :=
  match global h "arg" with
  | LTab a => tget (table_of h a) (LInt i)
  | _ => LNil
  end.

(** The heap the first script call of a trace finds. *)
Fixpoint first_call_heap (tr : list event) : option heap :=
  match tr with
  | [] => None
  | EvCall _ _ h :: _ => Some h
  | _ :: tr' => first_call_heap tr'
  end.

(** ** Closed forms for [start] *)

(** The string [push_scriptname] pushes. *)
Definition script_path (G : glirc) (path : string) (args : list string) : string :=
  match args with
  | [] => cstring (dirname (cstring path)) ++ "/glirc.lua"
  | arg0 :: _ => cstring (glirc_resolve_path G arg0)
  end.

(** The table the loop of [start] leaves. *)
Definition filled (rest : list string) (t : table) : table :=
  fold_left (fun t a => rawset_int t 1 (LStr a)) rest t.

(** The heap after line 43 of the file: [arg] is set. *)
Definition arg_heap (G : glirc) (path : string) (args : list string) : heap :=
  set_tables (set_extraspace new_heap G)
    (<[0%nat := rawset_str empty_table "arg" (LTab 1)]>
       (<[1%nat := rawset_int (filled (drop 1 args) empty_table) 0
                     (LStr (script_path G path args))]>
          (tables new_heap))).

(** The heap the user's script is called on. *)
Definition script_heap (G : glirc) (path : string) (args : list string) : heap :=
  glirc_lib (std_libs (arg_heap G path args)).

(** The registry after [lua_rawsetp] has stored the module. *)
Definition store_module (h : heap) (v : value) : heap :=
  set_registry h (fun k => match k with
                           | LLight q => if q =? glirc_callback_module_key
                                         then v else registry h k
                           | _ => registry h k
                           end).

End Bridge.

Arguments HDone {V A} a h tr.
Arguments HRaised {V A} e h tr.
Arguments Done {V A} a L tr.
Arguments Raised {V A} e L tr.
Arguments Fault {V A} tr.
Arguments Exit {V A} a inst tr.
Arguments Crash {V A} tr.

Notation "'do' x <- m ; k" := (bind m (fun x => k))
  (at level 10, x name, m at level 100, k at level 200).
Notation "m >>> k" := (bind m (fun _ => k))
  (at level 100, k at level 200, right associativity).

(** ** A small world to run the bridge in *)

(** Payloads are plain strings, the hidden state is a call counter and
    a host call is the text the script hands to the host. *)
Definition demo_types : host_types := mkTypes nat string string string string.

Section Demo.

#[local] Existing Instance demo_types.

Definition demo_alloc (h : heap) (t : table) : heap * nat :=
  let r := fresh (dom (tables h)) in
  (set_tables h (<[r := t]> (tables h)), r).

(** The scripts of the demo world, by closure number:
    0 is the chunk of /ext/glirc.lua, which returns a module with
    [process_message] (1, returns true), [process_command] (2, raises a
    fresh table) and [process_chat] (3, returns nothing);
    4 is the chunk of /cfg/num.lua, which returns 42;
    5 is the chunk of /cfg/empty.lua, which returns an empty table. *)
Definition demo_exec (f : value) (args : list value) (h : heap) : exec_outcome :=
  match f with
  | LFun 0 =>
      let '(h', r) :=
        demo_alloc h
          (rawset_str
             (rawset_str
                (rawset_str empty_table "process_chat" (LFun 3))
                "process_command" (LFun 2))
             "process_message" (LFun 1)) in
      Returns [LTab r] h' ["loaded"]
  | LFun 1 => Returns [LBool true] h []
  | LFun 2 => let '(h', r) := demo_alloc h empty_table in Throws (LTab r) h' []
  | LFun 3 => Returns [] h []
  | LFun 4 => Returns [LInt 42] h []
  | LFun 5 => let '(h', r) := demo_alloc h empty_table in Returns [LTab r] h' []
  | _ => Throws (LStr "no such function") h []
  end.

Definition demo_loadfile (p : string) : value + string :=
  if String.eqb p "/ext/glirc.lua" then inl (LFun 0)
  else if String.eqb p "/cfg/num.lua" then inl (LFun 4)
  else if String.eqb p "/cfg/empty.lua" then inl (LFun 5)
  else inr ("cannot open " ++ p).

(** A 64-bit host whose allocator delivers or not. *)
Definition demo_env (memory : bool) : environment :=
  {| exec := demo_exec;
     lua_Number2str := fun _ => "0.0";
     loadfile := demo_loadfile;
     version_error := None;
     newstate_ok := memory;
     hidden0 := 0%nat;
     std_libs := fun h => h;
     glirc_lib := fun h => h;
     LUA_EXTRASPACE := 8;
     sizeof_glirc_ptr := 8;
     glirc_callback_module_key := 4096;
     dirname := fun p => if String.eqb p "/ext/glirc-lua.so" then "/ext" else ".";
     glirc_resolve_path := fun _ s => "/cfg/" ++ s;
     marshal_message := fun m h => (h, LStr m);
     marshal_chat := fun m h => (h, LStr m);
     marshal_command := fun m h => (h, LStr m) |}.

(** The instance [start] returns in the demo world for the given
    arguments; a fresh state stands in when it returns none. *)
Definition demo_instance (args : list string) : lua_State :=
  match start (E := demo_env true) 7 "/ext/glirc-lua.so" args with
  | Exit _ (Some L) _ => L
  | _ => new_state (E := demo_env true)
  end.

End Demo.

(** ** A second world, with scripts that go wrong *)

Section Lab.

#[local] Existing Instance demo_types.

(** The scripts of the second world, by closure number:
    10 is the chunk of /lab/raise.lua, which raises a string with a NUL
    byte in it;
    11 is the chunk of /lab/table.lua, which raises a fresh table;
    12 is the chunk of /lab/mod.lua, which returns a module whose
    [process_message] is the number 5 and which inherits
    [process_chat] (13, returns true) from a parent table through
    [__index];
    14 is the chunk of /lab/named.lua, which returns a module whose
    [process_message] is a table with a metatable that names it Foo;
    15 is the chunk of /lab/handle.lua, which returns a full userdata
    with a metatable that names it Handle. *)
Definition lab_exec (f : value) (args : list value) (h : heap) : exec_outcome :=
  match f with
  | LFun 10 => Throws (LStr ("boom" ++ String Ascii.zero "tail")) h []
  | LFun 11 => let '(h', r) := demo_alloc h empty_table in Throws (LTab r) h' []
  | LFun 12 =>
      let '(h1, p) :=
        demo_alloc h (rawset_str empty_table "process_chat" (LFun 13)) in
      let '(h2, m) :=
        demo_alloc h1 (rawset_str empty_table "__index" (LTab p)) in
      let '(h3, r) :=
        demo_alloc h2
          (mkTable (tget (rawset_str empty_table "process_message" (LInt 5)))
                   (Some m)) in
      Returns [LTab r] h3 []
  | LFun 13 => Returns [LBool true] h ["chat seen"]
  | LFun 14 =>
      let '(h1, m) := demo_alloc h (rawset_str empty_table "__name" (LStr "Foo")) in
      let '(h2, f) := demo_alloc h1 (mkTable (tget empty_table) (Some m)) in
      let '(h3, r) :=
        demo_alloc h2 (rawset_str empty_table "process_message" (LTab f)) in
      Returns [LTab r] h3 []
  | LFun 15 =>
      let '(h1, m) :=
        demo_alloc h (rawset_str empty_table "__name" (LStr "Handle")) in
      Returns [LUData 0]
        (mkHeap (tables h1) (registry h1)
           (fun v => match v with
                     | LUData 0 => Some m
                     | _ => basic_meta h1 v
                     end)
           (extraspace h1) (hidden h1)) []
  | _ => Throws (LStr "no such function") h []
  end.

Definition lab_loadfile (p : string) : value + string :=
  if String.eqb p "/lab/raise.lua" then inl (LFun 10)
  else if String.eqb p "/lab/table.lua" then inl (LFun 11)
  else if String.eqb p "/lab/mod.lua" then inl (LFun 12)
  else if String.eqb p "/lab/named.lua" then inl (LFun 14)
  else if String.eqb p "/lab/handle.lua" then inl (LFun 15)
  else inr ("cannot open " ++ p).

(** A host with the given extra space and version check. *)
Definition lab_env (space : Z) (version : option string) : environment :=
  {| exec := lab_exec;
     lua_Number2str := fun _ => "0.0";
     loadfile := lab_loadfile;
     version_error := version;
     newstate_ok := true;
     hidden0 := 0%nat;
     std_libs := fun h => h;
     glirc_lib := fun h => h;
     LUA_EXTRASPACE := space;
     sizeof_glirc_ptr := 8;
     glirc_callback_module_key := 4096;
     dirname := fun _ => "/lab";
     glirc_resolve_path := fun _ s => "/lab/" ++ s;
     marshal_message := fun m h => (h, LStr m);
     marshal_chat := fun m h => (h, LStr m);
     marshal_command := fun m h => (h, LStr m) |}.

Definition lab_instance (args : list string) : lua_State :=
  match start (E := lab_env 8 None) 7 "/lab/glirc-lua.so" args with
  | Exit _ (Some L) _ => L
  | _ => new_state (E := lab_env 8 None)
  end.

End Lab.

(** * Properties *)

Local Open Scope list_scope.

Section Properties.
Context {V : host_types} {E : environment}.

(** Decide the integer comparisons of the goal. *)
Ltac zcmp :=
  repeat match goal with
  | |- context [?a <? ?b] => destruct (Z.ltb_spec a b); try lia
  | |- context [?a <=? ?b] => destruct (Z.leb_spec a b); try lia
  end.

(** *** Running the monad *)

Lemma with_trace_nil {A : Type} (r : res A) : with_trace [] r = r.
Proof. destruct r; reflexivity. Qed.

Lemma bind_step {A B : Type} (m : lua A) (k : A -> lua B) L a L1 :
  m L = Done a L1 [] -> bind m k L = k a L1.
Proof. intros H. unfold bind. rewrite H. apply with_trace_nil. Qed.

Lemma with_trace_app {A : Type} (t1 t2 : list event) (r : res A) :
  with_trace t1 (with_trace t2 r) = with_trace (t1 ++ t2) r.
Proof. destruct r; cbn [with_trace]; rewrite app_assoc; reflexivity. Qed.

Lemma with_trace_bind {A B : Type} (t : list event) (m : lua A) (k : A -> lua B) L :
  with_trace t (bind m k L) =
  match with_trace t (m L) with
  | Done a L1 t1 => with_trace t1 (k a L1)
  | Raised e L1 t1 => Raised e L1 t1
  | Fault t1 => Fault t1
  end.
Proof.
  unfold bind. destruct (m L); cbn [with_trace]; try reflexivity.
  apply with_trace_app.
Qed.

Lemma bind_assoc {A B C : Type} (m : lua A) (k : A -> lua B) (k' : B -> lua C) L :
  bind (bind m k) k' L = bind m (fun a => bind (k a) k') L.
Proof.
  unfold bind at 1 3. unfold bind at 1.
  destruct (m L) as [a L1 t1|e L1 t1|t1]; try reflexivity.
  rewrite with_trace_bind.
  destruct (k a L1); reflexivity.
Qed.

(** Symbolic execution: [step] runs the first action of a sequence
    when it completes without events, [next] reassociates first, and
    [simpl_stack] computes the stack of the state. *)
Tactic Notation "step" "by" tactic3(t) :=
  erewrite bind_step by t; cbn [stack mem].
Tactic Notation "step" := step by reflexivity.
Ltac simpl_stack :=
  repeat match goal with
  | |- context [mkState ?s ?h] =>
      progress (let s' := eval cbn in s in change s with s')
  end.
Tactic Notation "next" :=
  rewrite ?bind_assoc; erewrite bind_step by reflexivity; cbn [stack mem].

(** *** Steps of the API on stacks of a known shape *)

Lemma abs_index_1 (a : value) (s : list value) : abs_index (a :: s) 1 = Some 0%nat.
Proof. unfold abs_index. cbn [length]. zcmp. reflexivity. Qed.

Lemma abs_index_2 (a b : value) (s : list value) :
  abs_index (a :: b :: s) 2 = Some 1%nat.
Proof. unfold abs_index. cbn [length]. zcmp. reflexivity. Qed.

Lemma pop_eq (s : list value) (v : value) (h : heap) :
  pop (mkState (s ++ [v]) h) = Done v (mkState s h) [].
Proof.
  unfold pop. cbn [stack mem]. rewrite last_snoc, removelast_last. reflexivity.
Qed.

Lemma lua_insert_bottom (v : value) (s : list value) (h : heap) :
  lua_insert 1 (mkState (s ++ [v]) h) = Done tt (mkState (v :: s) h) [].
Proof.
  unfold lua_insert, lua_rotate. cbn [stack mem].
  assert (Hi : abs_index (s ++ [v]) 1 = Some 0%nat).
  { destruct s; apply abs_index_1. }
  rewrite Hi, drop_0, take_0, length_app. cbn [length].
  zcmp.
  replace (Z.to_nat (Z.of_nat (length s + 1) - 1)) with (length s) by lia.
  rewrite drop_app_length, take_app_length. reflexivity.
Qed.

Lemma lua_rotate_second_to_top (a b : value) (s : list value) (h : heap) :
  lua_rotate 2 (-1) (mkState (a :: b :: s) h) = Done tt (mkState (a :: s ++ [b]) h) [].
Proof.
  unfold lua_rotate. cbn [stack mem].
  rewrite abs_index_2. cbn [drop length]. zcmp. reflexivity.
Qed.


Lemma type_of_nil (v : value) : (type_of v =? LUA_TNIL) = is_nil v.
Proof. destruct v; reflexivity. Qed.

Lemma adjust_one (rs : list value) : adjust 1 rs = [hd LNil rs].
Proof. destruct rs; reflexivity. Qed.

Lemma call_frame_bottom (f : value) (args : list value) :
  call_frame (f :: args) (Z.of_nat (length args)) = Some ([], f, args).
Proof.
  unfold call_frame. zcmp. rewrite Nat2Z.id. cbn [length].
  replace (S (length args) <? length args + 1)%nat with false
    by (symmetry; apply Nat.ltb_ge; lia).
  replace (S (length args) - (length args + 1))%nat with 0%nat by lia.
  reflexivity.
Qed.

Lemma lua_call_bottom (f : value) (args : list value) (h : heap) :
  lua_call (Z.of_nat (length args)) 1 (mkState (f :: args) h) =
  match luaD_call f args h with
  | HDone rs h' tr => Done tt (mkState [hd LNil rs] h') tr
  | HRaised e h' tr => Raised e (mkState (f :: args) h') tr
  end.
Proof.
  unfold lua_call.
  step.
  rewrite call_frame_bottom.
  unfold bind, lift. cbn [stack mem].
  destruct (luaD_call f args h) as [rs h' tr|e h' tr]; [|reflexivity].
  cbn [with_trace set_stack mem app]. rewrite adjust_one, app_nil_r. reflexivity.
Qed.

Lemma lua_gettable_bottom (t k : value) (s : list value) (h : heap) :
  lua_gettable 1 (mkState (t :: s ++ [k]) h) =
  match luaV_gettable t k h with
  | HDone v h' tr => Done (type_of v) (mkState (t :: s ++ [v]) h') tr
  | HRaised e h' tr => Raised e (mkState (t :: s) h') tr
  end.
Proof.
  unfold lua_gettable.
  step by (unfold value_at; cbn [stack]; rewrite abs_index_1; reflexivity).
  step by (apply (pop_eq (t :: s))).
  unfold bind at 1, lift. cbn [stack mem].
  destruct (luaV_gettable t k h) as [v h' tr|e h' tr]; [|reflexivity].
  step.
  cbn [ret with_trace]. rewrite app_nil_r. reflexivity.
Qed.

(** What [callback_worker] does on its frame: the name and the
    marshalled arguments. *)
Lemma callback_worker_spec (name : value) (args : list value) (h : heap) :
  callback_worker (mkState (name :: args) h) =
  let ext := registry h (LLight glirc_callback_module_key) in
  match luaV_gettable ext name h with
  | HRaised e h1 t1 => Raised e (mkState (ext :: args) h1) t1
  | HDone cb h1 t1 =>
      if is_nil cb then Done 1 (mkState (ext :: args ++ [cb]) h1) t1
      else match luaD_call cb (ext :: args) h1 with
           | HDone rs h2 t2 => Done 1 (mkState [hd LNil rs] h2) (t1 ++ t2)
           | HRaised e h2 t2 => Raised e (mkState (cb :: ext :: args) h2) (t1 ++ t2)
           end
  end.
Proof.
  cbv zeta. unfold callback_worker.
  step.
  step.
  step by (apply (lua_insert_bottom _ (name :: args))).
  step by (apply lua_rotate_second_to_top).
  unfold bind at 1. rewrite lua_gettable_bottom.
  destruct (luaV_gettable _ name h) as [cb h1 t1|e h1 t1]; [|reflexivity].
  rewrite type_of_nil.
  destruct (is_nil cb) eqn:Hnil.
  - step.
    cbn [ret with_trace]. rewrite app_nil_r. reflexivity.
  - unfold bind at 1.
    step by (apply (lua_insert_bottom cb (registry h (LLight glirc_callback_module_key) :: args))).
    change (Z.of_nat (length (name :: args)))
      with (Z.of_nat (length (registry h (LLight glirc_callback_module_key) :: args))).
    rewrite lua_call_bottom.
    destruct (luaD_call cb _ h1) as [rs h2 t2|e h2 t2]; cbn [with_trace ret];
      rewrite ?app_nil_r; reflexivity.
Qed.

Lemma drop_all_but_last (s : list value) (v : value) :
  drop (length (s ++ [v]) - Z.to_nat 1) (s ++ [v]) = [v].
Proof.
  rewrite length_app. cbn [length].
  replace (length s + 1 - Z.to_nat 1)%nat with (length s) by lia.
  apply drop_app_length.
Qed.

(** The protected call of [callback]: the worker on the name and the
    arguments, one result. *)
Lemma lua_pcall_worker (name : value) (args : list value) (h : heap) :
  lua_pcall (1 + Z.of_nat (length args)) 1
    (mkState (LCFun callback_worker_fn :: name :: args) h) =
  let ext := registry h (LLight glirc_callback_module_key) in
  match luaV_gettable ext name h with
  | HRaised e h1 t1 => Done LUA_ERRRUN (mkState [e] h1) t1
  | HDone cb h1 t1 =>
      if is_nil cb then Done LUA_OK (mkState [cb] h1) t1
      else match luaD_call cb (ext :: args) h1 with
           | HDone rs h2 t2 => Done LUA_OK (mkState [hd LNil rs] h2) (t1 ++ t2)
           | HRaised e h2 t2 => Done LUA_ERRRUN (mkState [e] h2) (t1 ++ t2)
           end
  end.
Proof.
  cbv zeta. unfold lua_pcall. cbn [stack mem].
  replace (1 + Z.of_nat (length args)) with (Z.of_nat (length (name :: args)))
    by (cbn [length]; lia).
  rewrite call_frame_bottom.
  unfold run_cfunction. cbn [cfunction_body stack mem].
  rewrite callback_worker_spec. cbv zeta.
  destruct (luaV_gettable _ name h) as [cb h1 t1|e h1 t1]; [|reflexivity].
  destruct (is_nil cb).
  - cbn [stack mem].
    change (registry h (LLight glirc_callback_module_key) :: args ++ [cb])
      with ((registry h (LLight glirc_callback_module_key) :: args) ++ [cb]).
    rewrite drop_all_but_last, length_app. cbn [length].
    zcmp. reflexivity.
  - destruct (luaD_call cb _ h1) as [rs h2 t2|e h2 t2]; reflexivity.
Qed.

(** What a dispatch through [callback] does, from a stack that holds the
    event name and the marshalled arguments. *)
Lemma callback_spec (G : glirc) (name : value) (args : list value) (h : heap) :
  callback G (Z.of_nat (length args)) (mkState (name :: args) h) =
  let ext := registry h (LLight glirc_callback_module_key) in
  match luaV_gettable ext name h with
  | HRaised e h1 t1 =>
      Done PASS_MESSAGE (mkState [] h1)
        (t1 ++ [EvPrint G ERROR_MESSAGE (tostring_value e)])
  | HDone cb h1 t1 =>
      if is_nil cb then Done PASS_MESSAGE (mkState [] h1) t1
      else match luaD_call cb (ext :: args) h1 with
           | HDone rs h2 t2 =>
               Done (if truthy (hd LNil rs) then DROP_MESSAGE else PASS_MESSAGE)
                 (mkState [] h2) (t1 ++ t2)
           | HRaised e h2 t2 =>
               Done PASS_MESSAGE (mkState [] h2)
                 (t1 ++ t2 ++ [EvPrint G ERROR_MESSAGE (tostring_value e)])
           end
  end.
Proof.
  cbv zeta. unfold callback.
  step.
  step by (apply (lua_insert_bottom _ (name :: args))).
  unfold bind at 1. rewrite lua_pcall_worker. cbv zeta.
  assert (Herr : forall e h' t,
    with_trace t
      ((do msg <- lua_tolstring (-1);
        glirc_print G ERROR_MESSAGE msg >>> lua_settop 0 >>> ret PASS_MESSAGE)
         (mkState [e] h')) =
    Done PASS_MESSAGE (mkState [] h') (t ++ [EvPrint G ERROR_MESSAGE (tostring_value e)])).
  { intros e h' t. unfold bind, lua_tolstring. cbn [stack mem].
    change (abs_index [e] (-1)) with (Some 0%nat). cbn.
    destruct (tostring_value e); reflexivity. }
  assert (Hok : forall v h' t,
    with_trace t
      ((do res <- lua_toboolean 1;
        lua_settop 0 >>> ret (if res then DROP_MESSAGE else PASS_MESSAGE))
         (mkState [v] h')) =
    Done (if truthy v then DROP_MESSAGE else PASS_MESSAGE) (mkState [] h') t).
  { intros v h' t. cbn. rewrite app_nil_r. reflexivity. }
  destruct (luaV_gettable _ name h) as [cb h1 t1|e h1 t1].
  - destruct (is_nil cb) eqn:Hnil.
    + change (negb (LUA_OK =? LUA_OK)) with false. cbv iota.
      rewrite Hok. destruct cb; try discriminate. reflexivity.
    + destruct (luaD_call cb _ h1) as [rs h2 t2|e h2 t2].
      * change (negb (LUA_OK =? LUA_OK)) with false. cbv iota. apply Hok.
      * change (negb (LUA_ERRRUN =? LUA_OK)) with true. cbv iota.
        rewrite Herr, <- app_assoc. reflexivity.
  - change (negb (LUA_ERRRUN =? LUA_OK)) with true. cbv iota. apply Herr.
Qed.

(** *** [start] *)

Lemma set_tables_twice (h : heap) (m1 m2 : gmap nat table) :
  set_tables (set_tables h m1) m2 = set_tables h m2.
Proof. reflexivity. Qed.

Lemma set_tables_id (h : heap) : set_tables h (tables h) = h.
Proof. destruct h; reflexivity. Qed.

Lemma table_of_insert (h : heap) (r : nat) (t : table) (m : gmap nat table) :
  table_of (set_tables h (<[r := t]> m)) r = t.
Proof. unfold table_of. cbn [tables set_tables]. rewrite lookup_insert_eq. reflexivity. Qed.

Lemma start_fill_spec (rest : list string) (c : value) (r : nat) (t : table) (h : heap) :
  tables h !! r = Some t ->
  start_fill rest (mkState [c; LTab r] h) =
  Done tt (mkState [c; LTab r]
             (set_tables h (<[r := filled rest t]> (tables h)))) [].
Proof.
  revert t h. induction rest as [|a rest IH]; intros t h Ht.
  - cbn [start_fill filled fold_left ret].
    rewrite insert_id by exact Ht. rewrite set_tables_id. reflexivity.
  - cbn [start_fill].
    step.
    step. cbn [removelast app].
    unfold table_of. rewrite Ht. cbn [default from_option].
    rewrite (IH (rawset_int t 1 (LStr a))).
    + rewrite set_tables_twice. cbn [tables set_tables].
      rewrite insert_insert_eq. reflexivity.
    + cbn [tables set_tables]. apply lookup_insert_eq.
Qed.

Lemma bind_done {A B : Type} (m : lua A) (k : A -> lua B) L a L1 t1 :
  m L = Done a L1 t1 -> bind m k L = with_trace t1 (k a L1).
Proof. intros H. unfold bind. rewrite H. reflexivity. Qed.

Lemma MAXTAGLOOP_succ : MAXTAGLOOP = S (Nat.pred MAXTAGLOOP).
Proof. vm_compute. reflexivity. Qed.

Lemma luaV_finishset_plain (n : nat) (h : heap) (r : nat) (key : string) (v : value) :
  tmeta (table_of h r) = None ->
  luaV_finishset (S n) (LTab r) key v h = HDone tt (rawset_field h r key v) [].
Proof.
  intros Hm. cbn [luaV_finishset].
  unfold luaT_gettmbyobj, getmetatable. rewrite Hm. reflexivity.
Qed.

Lemma luaV_settable_plain (h : heap) (r : nat) (key : string) (v : value) :
  tget (table_of h r) (LStr key) = LNil ->
  tmeta (table_of h r) = None ->
  luaV_settable (LTab r) key v h = HDone tt (rawset_field h r key v) [].
Proof.
  intros Hk Hm. unfold luaV_settable, fastget. rewrite Hk. cbn [is_nil].
  rewrite MAXTAGLOOP_succ. apply luaV_finishset_plain, Hm.
Qed.

Lemma luaV_finishget_absent (n : nat) (h : heap) (r : nat) (key : value) :
  luaT_gettmbyobj h (LTab r) "__index" = LNil ->
  luaV_finishget (S n) (LTab r) key h = HDone LNil h [].
Proof. intros Hm. cbn [luaV_finishget]. rewrite Hm. reflexivity. Qed.

Lemma luaV_gettable_absent (h : heap) (r : nat) (key : value) :
  tget (table_of h r) key = LNil ->
  luaT_gettmbyobj h (LTab r) "__index" = LNil ->
  luaV_gettable (LTab r) key h = HDone LNil h [].
Proof.
  intros Hk Hm. unfold luaV_gettable, fastget. rewrite Hk. cbn [is_nil].
  rewrite MAXTAGLOOP_succ. apply luaV_finishget_absent, Hm.
Qed.

Lemma lua_call_chunk (chunk : value) (h : heap) :
  lua_call 0 1 (mkState [chunk] h) =
  match luaD_call chunk [] h with
  | HDone rs h' tr => Done tt (mkState [hd LNil rs] h') tr
  | HRaised e h' tr => Raised e (mkState [chunk] h') tr
  end.
Proof. exact (lua_call_bottom chunk [] h). Qed.

Lemma lua_setglobal_plain (name : string) (v : value) (s : list value)
  (h : heap) (g : nat) :
  registry h (LInt LUA_RIDX_GLOBALS) = LTab g ->
  tget (table_of h g) (LStr name) = LNil ->
  tmeta (table_of h g) = None ->
  lua_setglobal name (mkState (s ++ [v]) h) =
  Done tt (mkState s (rawset_field h g name v)) [].
Proof.
  intros Hg Hk Hm. unfold lua_setglobal.
  step by (apply pop_eq). step.
  unfold lift. cbn [stack mem]. rewrite Hg, luaV_settable_plain by assumption.
  reflexivity.
Qed.

Lemma table_of_new_globals (G : glirc) (t : table) :
  table_of (set_tables (set_extraspace new_heap G)
              (<[1%nat := t]> (tables new_heap))) 0 = empty_table.
Proof. reflexivity. Qed.

(** The heap [start] hands to [initialize_lua], for an [arg] table [t]. *)
Lemma initialize_lua_frame (G : glirc) (p : string) (t : table) (s : list value) :
  let h := set_tables (set_extraspace new_heap G) (<[1%nat := t]> (tables new_heap)) in
  run_cfunction initialize_lua_fn [LTab 1; LStr p] (mkState s h) =
  match version_error with
  | Some m => Raised (LStr m) (mkState s h) []
  | None =>
      match loadfile (cstring p) with
      | inr msg => Raised (LStr msg) (mkState s h) [EvLoadFile (cstring p)]
      | inl chunk =>
          let h1 := glirc_lib (std_libs
                      (set_tables (set_extraspace new_heap G)
                         (<[0%nat := rawset_str empty_table "arg" (LTab 1)]>
                            (<[1%nat := rawset_int t 0 (LStr p)]> (tables new_heap))))) in
          match luaD_call chunk [] h1 with
          | HDone rs h' tr =>
              Done [] (mkState s (store_module h' (hd LNil rs)))
                (EvLoadFile (cstring p) :: tr)
          | HRaised e h' tr =>
              Raised e (mkState s h') (EvLoadFile (cstring p) :: tr)
          end
      end
  end.
Proof.
  cbv zeta. unfold run_cfunction. cbn [cfunction_body stack mem].
  unfold initialize_lua, initialize_lua_setup, luaL_checkversion.
  rewrite !bind_assoc.
  destruct version_error as [m|].
  { reflexivity. }
  step. next. next. next.
  change (<[Z.to_nat (2 - 1) := LStr p]> [LTab 1; LStr p]) with [LTab 1; LStr p].
  unfold luaL_loadfile. rewrite !bind_assoc.
  erewrite bind_done by reflexivity. cbn [stack mem].
  destruct (loadfile (cstring p)) as [chunk|msg].
  2:{ next. next. reflexivity. }
  next. next. next.
  rewrite ?bind_assoc. step by (apply (lua_insert_bottom chunk [LTab 1; LStr p])).
  next. simpl_stack.
  rewrite table_of_insert, set_tables_twice. cbn [tables set_tables set_extraspace].
  rewrite insert_insert_eq.
  rewrite ?bind_assoc.
  step by (apply (lua_setglobal_plain "arg" (LTab 1) [chunk] _ 0); reflexivity).
  unfold rawset_field. rewrite table_of_new_globals, set_tables_twice.
  cbn [tables set_tables set_extraspace].
  next. next. cbn [tables set_tables set_extraspace].
  unfold bind at 1. rewrite lua_call_chunk.
  match goal with |- context [luaD_call chunk [] ?h] =>
    destruct (luaD_call chunk [] h) as [rs h' tr|e h' tr] end.
  2:{ reflexivity. }
  next. cbn [ret with_trace removelast]. rewrite app_nil_r. reflexivity.
Qed.

Lemma cstring_idem (s : string) : cstring (cstring s) = cstring s.
Proof.
  induction s as [|c s IH]; [reflexivity|].
  cbn [cstring]. destruct (Ascii.eqb c Ascii.zero) eqn:Hc; [reflexivity|].
  cbn [cstring]. rewrite Hc, IH. reflexivity.
Qed.

Lemma cstring_default_name (d : string) :
  cstring (cstring d ++ "/glirc.lua") = (cstring d ++ "/glirc.lua")%string.
Proof.
  induction d as [|c d IH]; [reflexivity|].
  cbn [cstring]. destruct (Ascii.eqb c Ascii.zero) eqn:Hc; [reflexivity|].
  change (String c (cstring d) ++ "/glirc.lua")%string
    with (String c (cstring d ++ "/glirc.lua")).
  change (cstring (String c (cstring d ++ "/glirc.lua")))
    with (if Ascii.eqb c Ascii.zero then EmptyString
          else String c (cstring (cstring d ++ "/glirc.lua"))).
  rewrite Hc. f_equal. exact IH.
Qed.

Lemma cstring_script_path (G : glirc) (path : string) (args : list string) :
  cstring (script_path G path args) = script_path G path args.
Proof.
  destruct args; [apply cstring_default_name | apply cstring_idem].
Qed.

Lemma push_scriptname_spec (G : glirc) (path : string) (args : list string)
  (s : list value) (h : heap) :
  extraspace h = Some G ->
  push_scriptname path args (mkState s h) =
  Done tt (mkState (s ++ [LStr (script_path G path args)]) h) [].
Proof.
  intros HG. destruct args as [|arg0 args]; [reflexivity|].
  unfold push_scriptname.
  step by (unfold get_glirc; step; rewrite HG; reflexivity).
  reflexivity.
Qed.

Lemma lua_createtable_new (narr nrec : Z) (s : list value) (h : heap) :
  tables h = tables new_heap ->
  lua_createtable narr nrec (mkState s h) =
  Done tt (mkState (s ++ [LTab 1])
             (set_tables h (<[1%nat := empty_table]> (tables new_heap)))) [].
Proof. intros Ht. unfold lua_createtable. cbn [stack mem]. rewrite Ht. reflexivity. Qed.

(** [start], case by case. *)
Lemma start_spec (G : glirc) (path : string) (args : list string) :
  start G path args =
  if LUA_EXTRASPACE <? sizeof_glirc_ptr then
    Exit tt None [EvPrint G ERROR_MESSAGE (Some "Lua extraspace too small")]
  else if negb newstate_ok then
    Exit tt None
      [EvPrint G ERROR_MESSAGE (Some "Failed to allocate Lua interpreter")]
  else
    match version_error with
    | Some m => Exit tt None [EvPrint G ERROR_MESSAGE (Some (cstring m)); EvClose]
    | None =>
        let p := script_path G path args in
        match loadfile p with
        | inr msg =>
            Exit tt None
              [EvLoadFile p; EvPrint G ERROR_MESSAGE (Some (cstring msg)); EvClose]
        | inl chunk =>
            match luaD_call chunk [] (script_heap G path args) with
            | HDone rs h' tr =>
                Exit tt (Some (mkState [] (store_module h' (hd LNil rs))))
                  (EvLoadFile p :: tr)
            | HRaised e h' tr =>
                match tostring_value e with
                | Some s =>
                    Exit tt None
                      (EvLoadFile p
                       :: tr ++ [EvPrint G ERROR_MESSAGE (Some (cstring s)); EvClose])
                | None => Crash (EvLoadFile p :: tr)
                end
            end
        end
    end.
Proof.
  unfold start.
  destruct (LUA_EXTRASPACE <? sizeof_glirc_ptr); [reflexivity|].
  destruct newstate_ok; [|reflexivity]. cbn [negb]. cbv zeta.
  unfold start_body.
  change new_state with (mkState [] new_heap).
  next. next. next.
  rewrite ?bind_assoc.
  step by (apply lua_createtable_new; reflexivity).
  simpl_stack.
  rewrite ?bind_assoc.
  step by (apply (start_fill_spec _ _ _ empty_table); reflexivity).
  rewrite set_tables_twice. cbn [tables set_tables set_extraspace].
  rewrite insert_insert_eq.
  rewrite ?bind_assoc.
  step by (apply (push_scriptname_spec G); reflexivity).
  simpl_stack.
  rewrite ?bind_assoc. unfold bind at 1. unfold lua_pcall.
  cbn [stack mem].
  change (call_frame [LCFun initialize_lua_fn; LTab 1; LStr (script_path G path args)] 2)
    with (Some ([] : list value, LCFun initialize_lua_fn,
                [LTab 1; LStr (script_path G path args)])).
  cbv iota beta.
  rewrite (initialize_lua_frame G). cbv zeta.
  rewrite cstring_script_path.
  destruct version_error as [m|].
  { reflexivity. }
  destruct (loadfile (script_path G path args)) as [chunk|msg].
  2:{ reflexivity. }
  unfold script_heap, arg_heap.
  match goal with |- context [luaD_call chunk [] ?h] =>
    destruct (luaD_call chunk [] h) as [rs h' tr|e h' tr] end.
  - change (LUA_OK =? 0) with true. cbv iota.
    cbn [ret with_trace mem prepend]. rewrite !app_nil_r. reflexivity.
  - cbn [with_trace app adjust].
    change (LUA_ERRRUN =? 0) with false. cbv iota.
    unfold lua_tostring, lua_tolstring. unfold bind. cbn [stack mem].
    change (abs_index [e] (-1)) with (Some 0%nat). cbn.
    destruct (tostring_value e); cbn; rewrite ?app_nil_r; reflexivity.
Qed.

(** *** The entry points *)

Lemma callback_spec_args (G : glirc) (name : value) (args : list value)
  (n : Z) (h : heap) :
  n = Z.of_nat (length args) ->
  callback G n (mkState (name :: args) h) =
  let ext := callback_module h in
  match luaV_gettable ext name h with
  | HRaised e h1 t1 =>
      Done PASS_MESSAGE (mkState [] h1)
        (t1 ++ [EvPrint G ERROR_MESSAGE (tostring_value e)])
  | HDone cb h1 t1 =>
      if is_nil cb then Done PASS_MESSAGE (mkState [] h1) t1
      else match luaD_call cb (ext :: args) h1 with
           | HDone rs h2 t2 =>
               Done (if truthy (hd LNil rs) then DROP_MESSAGE else PASS_MESSAGE)
                 (mkState [] h2) (t1 ++ t2)
           | HRaised e h2 t2 =>
               Done PASS_MESSAGE (mkState [] h2)
                 (t1 ++ t2 ++ [EvPrint G ERROR_MESSAGE (tostring_value e)])
           end
  end.
Proof. intros ->. apply callback_spec. Qed.

(** One call of the host on an instance whose stack is empty, case by
    case. *)
Lemma handle_spec (G : glirc) (L : lua_State) (ev : host_event) :
  stack L = [] ->
  handle G (Some L) ev =
  let h := (marshalled ev (mem L)).1 in
  let args := (marshalled ev (mem L)).2 in
  let ext := callback_module h in
  let finish (r : process_result) (h' : heap) (tr : list event) :=
    Exit (if bears_decision ev then Some r else None)
         (if is_stop ev then None else Some (mkState [] h'))
         (tr ++ (if is_stop ev then [EvClose] else [])) in
  match luaV_gettable ext (LStr (event_name ev)) h with
  | HRaised e h1 t1 =>
      finish PASS_MESSAGE h1 (t1 ++ [EvPrint G ERROR_MESSAGE (tostring_value e)])
  | HDone cb h1 t1 =>
      if is_nil cb then finish PASS_MESSAGE h1 t1
      else match luaD_call cb (ext :: args) h1 with
           | HDone rs h2 t2 =>
               finish (if truthy (hd LNil rs) then DROP_MESSAGE else PASS_MESSAGE)
                 h2 (t1 ++ t2)
           | HRaised e h2 t2 =>
               finish PASS_MESSAGE h2
                 (t1 ++ t2 ++ [EvPrint G ERROR_MESSAGE (tostring_value e)])
           end
  end.
Proof.
  destruct L as [s h0]. cbn [stack mem]. intros ->. cbv zeta.
  destruct ev as [msg|chat|cmd|];
    cbn [handle message_entrypoint chat_entrypoint command_entrypoint
         stop_entrypoint marshalled event_name bears_decision is_stop fst snd];
    unfold run_entry, push_glirc_message, push_glirc_chat, push_glirc_command,
      push_marshalled;
    next; simpl_stack.
  1-3: next; next; next; simpl_stack; rewrite ?bind_assoc.
  1-2: rewrite (callback_spec_args G _ [_] 1) by reflexivity.
  3: unfold bind at 1; rewrite (callback_spec_args G _ [_] 1) by reflexivity.
  4: unfold bind at 1; rewrite (callback_spec_args G _ [] 0) by reflexivity.
  all: cbv zeta;
    match goal with |- context [luaV_gettable ?t ?k ?h] =>
      destruct (luaV_gettable t k h) as [cb h1 t1|e h1 t1] end;
    [ destruct (is_nil cb);
      [ | match goal with |- context [luaD_call ?f ?a ?h] =>
            destruct (luaD_call f a h) as [rs h2 t2|e h2 t2] end ] | ];
    cbn; rewrite ?app_nil_r, <- ?app_assoc; reflexivity.
Qed.

(** *** Where events come from *)

Lemma call_function_script (f : value) (args : list value) (h : heap) :
  Forall (fun e => is_script e = true) (hres_trace (call_function f args h)).
Proof.
  unfold call_function.
  destruct (exec f args h) as [rs h' cs|e h' cs]; cbn [hres_trace];
    (constructor; [reflexivity|]);
    apply Forall_forall; intros x Hx; apply list_elem_of_In, in_map_iff in Hx;
    destruct Hx as [c [<- _]]; reflexivity.
Qed.

Lemma luaD_call_script (f : value) (args : list value) (h : heap) :
  Forall (fun e => is_script e = true) (hres_trace (luaD_call f args h)).
Proof.
  unfold luaD_call. destruct (is_function f); [apply call_function_script|].
  destruct (is_function _); [apply call_function_script|constructor].
Qed.

Lemma luaV_finishget_script (n : nat) (t key : value) (h : heap) :
  Forall (fun e => is_script e = true) (hres_trace (luaV_finishget n t key h)).
Proof.
  revert t. induction n as [|n IH]; intros t; cbn [luaV_finishget].
  - constructor.
  - destruct (is_nil _).
    + destruct t; constructor.
    + destruct (is_function _).
      * pose proof (call_function_script (luaT_gettmbyobj h t "__index") [t; key] h) as Hc.
        destruct (call_function _ _ h); exact Hc.
      * destruct (fastget h _ key); [constructor|apply IH].
Qed.

Lemma luaV_gettable_script (t key : value) (h : heap) :
  Forall (fun e => is_script e = true) (hres_trace (luaV_gettable t key h)).
Proof.
  unfold luaV_gettable. destruct (fastget h t key); [constructor|].
  apply luaV_finishget_script.
Qed.

Lemma luaV_finishset_script (n : nat) (t : value) (key : string) (v : value) (h : heap) :
  Forall (fun e => is_script e = true) (hres_trace (luaV_finishset n t key v h)).
Proof.
  revert t. induction n as [|n IH]; intros t; cbn [luaV_finishset].
  - constructor.
  - destruct (is_nil _).
    + destruct t; constructor.
    + destruct (is_function _).
      * pose proof (call_function_script (luaT_gettmbyobj h t "__newindex")
                      [t; LStr key; v] h) as Hc.
        destruct (call_function _ _ h); exact Hc.
      * destruct (fastget h _ (LStr key)); [|apply IH].
        destruct (luaT_gettmbyobj h t "__newindex"); try apply IH. constructor.
Qed.

Lemma luaV_settable_script (t : value) (key : string) (v : value) (h : heap) :
  Forall (fun e => is_script e = true) (hres_trace (luaV_settable t key v h)).
Proof.
  unfold luaV_settable.
  destruct (fastget h t (LStr key)); [|apply luaV_finishset_script].
  destruct t; try apply luaV_finishset_script. constructor.
Qed.

Lemma script_not_close (tr : list event) :
  Forall (fun e => is_script e = true) tr ->
  Forall (fun e => is_close e = false) tr.
Proof.
  intros H. eapply Forall_impl; [exact H|]. intros []; cbn; congruence.
Qed.

Lemma script_not_report (tr : list event) :
  Forall (fun e => is_script e = true) tr -> reports tr = [].
Proof.
  induction 1 as [|e tr He _ IH]; [reflexivity|].
  unfold reports in *.
  destruct e; cbn in He; try discriminate; cbn; exact IH.
Qed.

(** *** Only [lua_close] closes *)

Lemma never_closes_bind {A B : Type} (m : lua A) (k : A -> lua B) :
  never_closes m -> (forall a, never_closes (k a)) -> never_closes (bind m k).
Proof.
  intros Hm Hk L. unfold bind. specialize (Hm L).
  destruct (m L) as [a L1 t1|e L1 t1|t1]; cbn [res_trace] in *; try exact Hm.
  specialize (Hk a L1).
  destruct (k a L1); cbn [with_trace res_trace] in *; apply Forall_app; auto.
Qed.

Lemma never_closes_lift {A : Type} (m : interp A) :
  (forall h, Forall (fun e => is_script e = true) (hres_trace (m h))) ->
  never_closes (lift m).
Proof.
  intros Hm L. unfold lift. specialize (Hm (mem L)).
  apply script_not_close in Hm. destruct (m (mem L)); exact Hm.
Qed.

Lemma never_closes_emit (ev : event) :
  is_close ev = false -> never_closes (emit ev).
Proof. intros H L. cbn. constructor; [exact H|constructor]. Qed.

Lemma silent_never_closes {A : Type} (m : lua A) : silent m -> never_closes m.
Proof. intros H L. rewrite H. constructor. Qed.

Ltac silence :=
  intros L;
  repeat match goal with
  | |- context [match ?x with _ => _ end] => destruct x
  | |- _ => progress cbn
  end; reflexivity.

Lemma silent_ret {A : Type} (a : A) : silent (ret a).
Proof. intros L. reflexivity. Qed.
Lemma silent_raise {A : Type} (e : value) : silent (@raise _ A e).
Proof. intros L. reflexivity. Qed.
Lemma silent_fault {A : Type} : silent (@fault _ A).
Proof. intros L. reflexivity. Qed.
Lemma silent_get_stack : silent get_stack.
Proof. intros L. reflexivity. Qed.
Lemma silent_set_stack (s : list value) : silent (set_stack s).
Proof. intros L. reflexivity. Qed.
Lemma silent_get_mem : silent get_mem.
Proof. intros L. reflexivity. Qed.
Lemma silent_set_mem (h : heap) : silent (set_mem h).
Proof. intros L. reflexivity. Qed.
Lemma silent_push (v : value) : silent (push v).
Proof. intros L. reflexivity. Qed.
Lemma silent_pop : silent pop.
Proof. intros L. unfold pop. destruct (last (stack L)); reflexivity. Qed.
Lemma silent_value_at (idx : Z) : silent (value_at idx).
Proof.
  intros L. unfold value_at. destruct (abs_index (stack L) idx); [|reflexivity].
  destruct (stack L !! n); reflexivity.
Qed.
Lemma silent_value_opt (idx : Z) : silent (value_opt idx).
Proof.
  intros L. unfold value_opt. destruct (0 <? idx); [reflexivity|].
  destruct (abs_index (stack L) idx); reflexivity.
Qed.
Lemma silent_lua_gettop : silent lua_gettop.
Proof. intros L. reflexivity. Qed.
Lemma silent_lua_settop (idx : Z) : silent (lua_settop idx).
Proof. intros L. unfold lua_settop. destruct (_ <? 0); reflexivity. Qed.
Lemma silent_lua_rotate (idx n : Z) : silent (lua_rotate idx n).
Proof.
  intros L. unfold lua_rotate. destruct (abs_index (stack L) idx); [|reflexivity].
  destruct (Z.abs n <=? _); reflexivity.
Qed.
Lemma silent_lua_tolstring (idx : Z) : silent (lua_tolstring idx).
Proof.
  intros L. unfold lua_tolstring.
  destruct (if 0 <? idx then _ else _); [|reflexivity].
  destruct (stack L !! n); [|reflexivity].
  destruct (tostring_value v); reflexivity.
Qed.
Lemma silent_lua_createtable (a b : Z) : silent (lua_createtable a b).
Proof. intros L. reflexivity. Qed.

Create HintDb closes.
#[local] Hint Resolve silent_ret silent_raise silent_fault silent_get_stack
  silent_set_stack silent_get_mem silent_set_mem silent_push silent_pop
  silent_value_at silent_value_opt silent_lua_gettop silent_lua_settop
  silent_lua_rotate silent_lua_tolstring silent_lua_createtable : closes.
#[local] Hint Resolve luaD_call_script luaV_gettable_script luaV_settable_script : closes.

(** Structural proof that a composite never closes: binds are split,
    branches are taken apart, and the leaves are silent steps, lifted
    interpreter work or events other than [EvClose]. *)
Ltac closes :=
  repeat first
    [ apply never_closes_bind; [|intros ?]
    | apply silent_never_closes; solve [auto with closes]
    | apply never_closes_lift; intros ?; solve [auto with closes]
    | apply never_closes_emit; reflexivity
    | match goal with
      | |- never_closes (match ?x with _ => _ end) => destruct x
      | |- never_closes (if ?b then _ else _) => destruct b
      | |- never_closes (let _ := _ in _) => cbv zeta
      end
    | assumption ].

Lemma never_closes_lua_type (idx : Z) : never_closes (lua_type idx).
Proof. unfold lua_type. closes. Qed.
Lemma never_closes_lua_toboolean (idx : Z) : never_closes (lua_toboolean idx).
Proof. unfold lua_toboolean. closes. Qed.
Lemma never_closes_lua_rawseti (idx i : Z) : never_closes (lua_rawseti idx i).
Proof. unfold lua_rawseti. closes. Qed.
Lemma never_closes_lua_rawsetp (p : Z) : never_closes (lua_rawsetp_registry p).
Proof. unfold lua_rawsetp_registry. closes. Qed.
Lemma never_closes_lua_rawgetp (p : Z) : never_closes (lua_rawgetp_registry p).
Proof. unfold lua_rawgetp_registry. closes. Qed.
Lemma never_closes_lua_call (n r : Z) : never_closes (lua_call n r).
Proof. unfold lua_call. closes. Qed.
Lemma never_closes_lua_gettable (idx : Z) : never_closes (lua_gettable idx).
Proof. unfold lua_gettable. closes. Qed.
Lemma never_closes_lua_setglobal (name : string) : never_closes (lua_setglobal name).
Proof. unfold lua_setglobal. closes. Qed.
Lemma never_closes_lua_error {A : Type} : never_closes (@lua_error _ A).
Proof. unfold lua_error. closes. Qed.
Lemma never_closes_luaL_typeerror {A : Type} (arg : Z) (tn : string) :
  never_closes (@luaL_typeerror _ A arg tn).
Proof. unfold luaL_typeerror. closes. Qed.
Lemma never_closes_luaL_checktype (arg t : Z) : never_closes (luaL_checktype arg t).
Proof. unfold luaL_checktype. closes. Qed.
Lemma never_closes_luaL_checkstring (arg : Z) : never_closes (luaL_checkstring arg).
Proof. unfold luaL_checkstring. closes. Qed.
Lemma never_closes_luaL_loadfile (f : string) : never_closes (luaL_loadfile f).
Proof. unfold luaL_loadfile. closes. Qed.

#[local] Hint Resolve never_closes_lua_type never_closes_lua_toboolean
  never_closes_lua_rawseti never_closes_lua_rawsetp never_closes_lua_rawgetp
  never_closes_lua_call never_closes_lua_gettable never_closes_lua_setglobal
  never_closes_lua_error never_closes_luaL_typeerror never_closes_luaL_checktype
  never_closes_luaL_checkstring never_closes_luaL_loadfile : closes.

Ltac closes' := closes; try solve [auto with closes].

Lemma never_closes_initialize_lua : never_closes initialize_lua.
Proof.
  unfold initialize_lua, initialize_lua_setup, luaL_checkversion, luaL_openlibs,
    glirc_install_lib, lua_insert.
  closes'.
Qed.

Lemma never_closes_callback_worker : never_closes callback_worker.
Proof. unfold callback_worker, lua_insert. closes'. Qed.

Lemma never_closes_run_cfunction (c : cfunction) (args : list value) :
  never_closes (run_cfunction c args).
Proof.
  intros L. unfold run_cfunction.
  assert (H : Forall (fun e => is_close e = false)
                (res_trace (cfunction_body c (mkState args (mem L))))).
  { destruct c; [apply never_closes_initialize_lua|apply never_closes_callback_worker]. }
  destruct (cfunction_body c _); cbn [res_trace] in *; try exact H.
  destruct (_ && _); exact H.
Qed.

Lemma never_closes_lua_pcall (n r : Z) : never_closes (lua_pcall n r).
Proof.
  intros L. unfold lua_pcall.
  destruct (call_frame (stack L) n) as [[[below f] args]|]; [|constructor].
  set (callee := match f with
                 | LCFun c => run_cfunction c args
                 | _ => lift (luaD_call f args)
                 end).
  assert (H : Forall (fun e => is_close e = false) (res_trace (callee L))).
  { subst callee. destruct f; try apply never_closes_run_cfunction;
      apply never_closes_lift; intros ?; apply luaD_call_script. }
  destruct (callee L); exact H.
Qed.

#[local] Hint Resolve never_closes_lua_pcall : closes.

Lemma never_closes_callback (G : glirc) (nargs : Z) : never_closes (callback G nargs).
Proof. unfold callback, lua_insert, lua_pushcfunction, glirc_print. closes'. Qed.

Lemma never_closes_start_body (G : glirc) (path : string) (args : list string) :
  never_closes (start_body G path args).
Proof.
  unfold start_body, lua_pushcfunction, lua_tostring. cbv zeta.
  assert (Hfill : forall rest, never_closes (start_fill rest)).
  { induction rest; cbn [start_fill]; unfold push_glirc_string, lua_pushlstring;
      closes'. }
  assert (Hname : never_closes (push_scriptname path args)).
  { unfold push_scriptname, get_glirc, lua_pushstring. closes'. }
  closes'.
Qed.


(** *** Traces of [start] and of the stop sequence *)

Lemma loaded_paths_app (t1 t2 : list event) :
  loaded_paths (t1 ++ t2) = loaded_paths t1 ++ loaded_paths t2.
Proof.
  induction t1 as [|e t1 IH]; [reflexivity|].
  destruct e; cbn [app loaded_paths]; rewrite IH; reflexivity.
Qed.

Lemma script_loads_nothing (tr : list event) :
  Forall (fun e => is_script e = true) tr -> loaded_paths tr = [].
Proof.
  induction 1 as [|e tr He _ IH]; [reflexivity|].
  destruct e; cbn in He; try discriminate; exact IH.
Qed.

Lemma report_after_open_prefix (tr suffix : list event) :
  Forall (fun e => is_close e = false) tr ->
  report_after_close false (tr ++ suffix) = report_after_close false suffix.
Proof.
  induction 1 as [|e tr He _ IH]; [reflexivity|].
  destruct e; cbn in He; try discriminate; exact IH.
Qed.

Lemma no_report_after_open (tr : list event) :
  Forall (fun e => is_close e = false) tr -> report_after_close false tr = false.
Proof.
  intros H. rewrite <- (app_nil_r tr). apply (report_after_open_prefix tr [] H).
Qed.

(** C4: in [start] and in [stop_entrypoint], no diagnostic is reported
    once the interpreter has been closed; and whenever [start] closes
    the interpreter, the close is its last event and the report of the
    error comes just before it. *)
Theorem report_precedes_close (G : glirc) (path : string) (args : list string)
  (inst : option lua_State) :
  report_after_close false (entry_trace (start G path args)) = false
  /\ report_after_close false (entry_trace (stop_entrypoint G inst)) = false
  /\ (In EvClose (entry_trace (start G path args)) ->
      exists pre msg,
        entry_trace (start G path args)
        = pre ++ [EvPrint G ERROR_MESSAGE msg; EvClose]
        /\ Forall (fun e => is_close e = false) pre).
Proof.
  split; [|split].
  - unfold start.
    destruct (LUA_EXTRASPACE <? sizeof_glirc_ptr); [reflexivity|].
    destruct (negb newstate_ok); [reflexivity|].
    pose proof (never_closes_start_body G path args new_state) as Hb.
    destruct (start_body G path args new_state) as [[[e|]|] L tr|e L tr|tr];
      cbn [res_trace entry_trace cleanup prepend] in *.
    + rewrite (report_after_open_prefix tr _ Hb). reflexivity.
    + rewrite app_nil_r. apply no_report_after_open, Hb.
    + apply no_report_after_open, Hb.
    + apply no_report_after_open, Hb.
    + apply no_report_after_open, Hb.
  - destruct inst as [L|]; [|reflexivity].
    unfold stop_entrypoint, run_entry.
    pose proof (never_closes_bind (lua_pushliteral "stop")
                  (fun _ => callback G 0)) as Hm.
    specialize (Hm ltac:(apply silent_never_closes, silent_push)
                   ltac:(intros; apply never_closes_callback) L).
    rewrite <- (bind_assoc (lua_pushliteral "stop") (fun _ => callback G 0)
                  (fun _ => lua_close)).
    unfold bind at 1.
    destruct ((lua_pushliteral "stop" >>> callback G 0) L) as [a L1 t1|e L1 t1|t1];
      cbn [res_trace with_trace lua_close emit entry_trace] in *.
    + rewrite (report_after_open_prefix t1 [EvClose] Hm). reflexivity.
    + apply no_report_after_open, Hm.
    + apply no_report_after_open, Hm.
  - rewrite start_spec.
    destruct (LUA_EXTRASPACE <? sizeof_glirc_ptr).
    { cbn. intros [H|[]]; discriminate. }
    destruct (negb newstate_ok).
    { cbn. intros [H|[]]; discriminate. }
    destruct version_error as [m|].
    { intros _. exists [], (Some (cstring m)). split; [reflexivity|constructor]. }
    cbv zeta.
    destruct (loadfile _) as [chunk|msg].
    2:{ intros _. exists [EvLoadFile (script_path G path args)], (Some (cstring msg)).
        split; [reflexivity|]. repeat constructor. }
    pose proof (luaD_call_script chunk [] (script_heap G path args)) as Hs.
    apply script_not_close in Hs.
    destruct (luaD_call chunk [] _) as [rs h' tr|e h' tr]; cbn [hres_trace] in Hs.
    + cbn [entry_trace]. intros [H|H]; [discriminate|].
      rewrite Forall_forall in Hs. apply list_elem_of_In, Hs in H. discriminate.
    + destruct (tostring_value e) as [s|]; cbn [entry_trace].
      * intros _. exists (EvLoadFile (script_path G path args) :: tr), (Some (cstring s)).
        split; [reflexivity|]. constructor; [reflexivity|exact Hs].
      * intros [H|H]; [discriminate|].
        rewrite Forall_forall in Hs. apply list_elem_of_In, Hs in H. discriminate.
Qed.

(** C10: when the allocator delivers no interpreter state, [start]
    reports the fixed message and returns NULL; nothing is closed. *)
Theorem start_without_interpreter (G : glirc) (path : string) (args : list string) :
  (LUA_EXTRASPACE <? sizeof_glirc_ptr) = false ->
  newstate_ok = false ->
  start G path args
  = Exit tt None
      [EvPrint G ERROR_MESSAGE (Some "Failed to allocate Lua interpreter")].
Proof.
  intros Hx Hn. unfold start. rewrite Hx, Hn. reflexivity.
Qed.

(** C8: the path [push_scriptname] pushes, and the only path [start]
    asks the loader for, is the directory of the library path joined
    with glirc.lua when there are no arguments, and the host's
    resolution of [args[0]] otherwise; the loader is reached unless the
    extra space is too small, the allocation fails or the version check
    fails. *)
Theorem start_script_path (G : glirc) (path : string) (args : list string) :
  let expected :=
    match args with
    | [] => (cstring (dirname (cstring path)) ++ "/glirc.lua")%string
    | arg0 :: _ => cstring (glirc_resolve_path G arg0)
    end in
  (forall s h, extraspace h = Some G ->
     push_scriptname path args (mkState s h)
     = Done tt (mkState (s ++ [LStr expected]) h) [])
  /\ loaded_paths (entry_trace (start G path args))
     = if (LUA_EXTRASPACE <? sizeof_glirc_ptr) || negb newstate_ok
          || bool_decide (is_Some version_error)
       then [] else [expected].
Proof.
  cbv zeta. split.
  { intros s h HG. apply (push_scriptname_spec G path args s h HG). }
  change (match args with
          | [] => (cstring (dirname (cstring path)) ++ "/glirc.lua")%string
          | arg0 :: _ => cstring (glirc_resolve_path G arg0)
          end) with (script_path G path args).
  rewrite start_spec.
  destruct (LUA_EXTRASPACE <? sizeof_glirc_ptr); [reflexivity|].
  destruct (negb newstate_ok); [reflexivity|].
  destruct version_error as [m|]; [reflexivity|].
  cbn [orb]. rewrite bool_decide_eq_false_2 by (intros [x Hx]; discriminate).
  cbv zeta.
  destruct (loadfile _) as [chunk|msg]; [|reflexivity].
  pose proof (luaD_call_script chunk [] (script_heap G path args)) as Hs.
  apply script_loads_nothing in Hs.
  destruct (luaD_call chunk [] _) as [rs h' tr|e h' tr]; cbn [hres_trace] in Hs.
  - cbn [entry_trace loaded_paths]. rewrite Hs. reflexivity.
  - destruct (tostring_value e); cbn [entry_trace loaded_paths];
      rewrite ?loaded_paths_app, Hs; reflexivity.
Qed.

(** C2, as the code has it: when the user's script loads and runs to
    completion, [start] stores whatever it returned first (a table or
    not, [nil] when it returned nothing) as the callback module, reports
    nothing and returns a live instance with an empty stack. *)
Theorem start_keeps_any_module (G : glirc) (path : string) (args : list string)
  (chunk : value) (rs : list value) (h' : heap) (tr : list event) :
  (LUA_EXTRASPACE <? sizeof_glirc_ptr) = false ->
  newstate_ok = true ->
  version_error = None ->
  loadfile (script_path G path args) = inl chunk ->
  luaD_call chunk [] (script_heap G path args) = HDone rs h' tr ->
  exists L trace,
    start G path args = Exit tt (Some L) trace
    /\ stack L = []
    /\ callback_module (mem L) = hd LNil rs
    /\ reports trace = []
    /\ ~ In EvClose trace.
Proof.
  intros Hx Hn Hv Hl Hc.
  exists (mkState [] (store_module h' (hd LNil rs))),
         (EvLoadFile (script_path G path args) :: tr).
  pose proof (luaD_call_script chunk [] (script_heap G path args)) as Hs.
  rewrite Hc in Hs. cbn [hres_trace] in Hs.
  split; [|split; [|split; [|split]]].
  - rewrite start_spec, Hx, Hn, Hv. cbn [negb]. cbv zeta. rewrite Hl, Hc. reflexivity.
  - reflexivity.
  - unfold callback_module, store_module. cbn [mem registry set_registry].
    rewrite Z.eqb_refl. reflexivity.
  - unfold reports. cbn [List.filter is_report]. apply script_not_report, Hs.
  - intros [H|H]; [discriminate|].
    apply script_not_close in Hs. rewrite Forall_forall in Hs.
    apply list_elem_of_In, Hs in H. discriminate.
Qed.


(** *** Dispatch *)

Lemma handle_null (G : glirc) (ev : host_event) :
  exists r, handle G None ev = Exit r None [].
Proof. destruct ev; eexists; reflexivity. Qed.

(** An instance at rest stays at rest through any call, and no call
    crashes on it. *)
Lemma handle_at_rest (G : glirc) (inst : option lua_State) (ev : host_event) :
  at_rest inst ->
  exists r inst' tr, handle G inst ev = Exit r inst' tr /\ at_rest inst'.
Proof.
  destruct inst as [L|]; intros HL.
  2:{ destruct (handle_null G ev) as [r Hr]. exists r, None, []. auto. }
  rewrite (handle_spec G L ev HL). cbv zeta.
  destruct (luaV_gettable _ _ _) as [cb h1 t1|e h1 t1].
  - destruct (is_nil cb).
    + eexists _, _, _. split; [reflexivity|]. destruct (is_stop ev); exact I || reflexivity.
    + destruct (luaD_call cb _ h1) as [rs h2 t2|e h2 t2];
        (eexists _, _, _; split; [reflexivity|]; destruct (is_stop ev); exact I || reflexivity).
  - eexists _, _, _. split; [reflexivity|]. destruct (is_stop ev); exact I || reflexivity.
Qed.

Lemma deliver_at_rest (G : glirc) (evs : list host_event) (inst : option lua_State) :
  at_rest inst ->
  exists inst' tr, deliver G evs inst = Exit tt inst' tr /\ at_rest inst'.
Proof.
  revert inst. induction evs as [|ev evs IH]; intros inst Hi.
  - exists inst, []. auto.
  - cbn [deliver].
    destruct (handle_at_rest G inst ev Hi) as (r & inst1 & tr1 & -> & H1).
    destruct (is_stop ev); [exists inst1, tr1; auto|].
    destruct (IH inst1 H1) as (inst2 & tr2 & -> & H2).
    exists inst2, (tr1 ++ tr2). auto.
Qed.

(** C5: for a message or chat event on an instance at rest whose
    callback is found and returns normally, the entry point returns
    DROP_MESSAGE if and only if the first returned value is truthy, and
    PASS_MESSAGE when it is falsy or absent. *)
Theorem decision_is_truth_of_result (G : glirc) (L : lua_State) (ev : host_event)
  (cb : value) (h1 : heap) (t1 : list event)
  (rs : list value) (h2 : heap) (t2 : list event) :
  let h := (marshalled ev (mem L)).1 in
  let args := (marshalled ev (mem L)).2 in
  stack L = [] ->
  bears_decision ev = true ->
  luaV_gettable (callback_module h) (LStr (event_name ev)) h = HDone cb h1 t1 ->
  is_nil cb = false ->
  luaD_call cb (callback_module h :: args) h1 = HDone rs h2 t2 ->
  exists r,
    handle G (Some L) ev = Exit (Some r) (Some (mkState [] h2)) (t1 ++ t2)
    /\ (r = DROP_MESSAGE <-> truthy (hd LNil rs) = true)
    /\ (r = PASS_MESSAGE <-> truthy (hd LNil rs) = false).
Proof.
  cbv zeta. intros HL Hd Hg Hn Hc.
  exists (if truthy (hd LNil rs) then DROP_MESSAGE else PASS_MESSAGE).
  split.
  - rewrite (handle_spec G L ev HL). cbv zeta. rewrite Hg, Hn, Hc, Hd.
    destruct ev; try discriminate; cbn [is_stop]; rewrite app_nil_r; reflexivity.
  - destruct (truthy (hd LNil rs)); split; split; congruence.
Qed.

(** A module table that lacks the field and inherits nothing is one
    way for the lookup to give nil, with no event and the heap as it
    was. *)
Lemma no_entry_lookup (h : heap) (name : string) :
  no_entry h name ->
  luaV_gettable (callback_module h) (LStr name) h = HDone LNil h [].
Proof.
  intros (r & Hr & Hk & Hm). rewrite Hr. apply luaV_gettable_absent; assumption.
Qed.

(** C6: for any event on an instance at rest whose callback module has
    no entry under the event's name, that is, the lookup of the name
    gives nil (in the module table itself and in whatever it inherits
    from), the entry point returns PASS_MESSAGE (nothing, for command
    and stop), reports nothing and calls no script code: the events of
    the call are those of the lookup, followed by the close for a
    stop. *)
Theorem absent_callback_is_no_op (G : glirc) (L : lua_State) (ev : host_event)
  (h1 : heap) (t1 : list event) :
  let h := (marshalled ev (mem L)).1 in
  let closing := if is_stop ev then [EvClose] else [] in
  stack L = [] ->
  luaV_gettable (callback_module h) (LStr (event_name ev)) h = HDone LNil h1 t1 ->
  handle G (Some L) ev
  = Exit (if bears_decision ev then Some PASS_MESSAGE else None)
         (if is_stop ev then None else Some (mkState [] h1))
         (t1 ++ closing)
  /\ reports (t1 ++ closing) = []
  /\ script_calls (t1 ++ closing) = script_calls t1.
Proof.
  cbv zeta. intros HL Hg. split; [|split].
  - rewrite (handle_spec G L ev HL). cbv zeta. rewrite Hg. reflexivity.
  - pose proof (luaV_gettable_script (callback_module (marshalled ev (mem L)).1)
                  (LStr (event_name ev)) (marshalled ev (mem L)).1) as H1.
    rewrite Hg in H1. cbn [hres_trace] in H1. apply script_not_report in H1.
    unfold reports in *. rewrite List.filter_app, H1.
    destruct (is_stop ev); reflexivity.
  - unfold script_calls. rewrite List.filter_app.
    destruct (is_stop ev); cbn [List.filter is_call]; apply app_nil_r.
Qed.


(** C3, as the code has it: when the callback raises an error, the
    protected call catches it and the sink is given the text of the
    error value if that is a string or a number, and a NULL message of
    length 0 for any other error value. *)
Theorem callback_reports_error_text (G : glirc) (name : value) (args : list value)
  (h : heap) (cb : value) (h1 : heap) (t1 : list event)
  (e : value) (h2 : heap) (t2 : list event) :
  luaV_gettable (callback_module h) name h = HDone cb h1 t1 ->
  is_nil cb = false ->
  luaD_call cb (callback_module h :: args) h1 = HRaised e h2 t2 ->
  callback G (Z.of_nat (length args)) (mkState (name :: args) h)
  = Done PASS_MESSAGE (mkState [] h2)
      (t1 ++ t2 ++ [EvPrint G ERROR_MESSAGE (tostring_value e)])
  /\ tostring_value e
     = match e with
       | LStr s => Some s
       | LInt n => Some (pretty n)
       | LFlt b => Some (lua_Number2str b)
       | _ => None
       end.
Proof.
  intros Hg Hn Hc. split; [|reflexivity].
  rewrite callback_spec. cbv zeta.
  change (registry h (LLight glirc_callback_module_key)) with (callback_module h).
  rewrite Hg, Hn, Hc. reflexivity.
Qed.

(** C9: [callback] returns with an empty stack from the name and the
    arguments, whichever path it takes; the instance [start] returns is
    at rest; and an instance at rest is at rest again after each call
    and after any sequence of calls, none of which crashes. *)
Theorem stack_is_empty_between_events (G : glirc) :
  (forall name args h, exists r h' tr,
     callback G (Z.of_nat (length args)) (mkState (name :: args) h)
     = Done r (mkState [] h') tr)
  /\ (forall path args L tr,
        start G path args = Exit tt (Some L) tr -> stack L = [])
  /\ (forall L ev, stack L = [] ->
        exists r inst tr, handle G (Some L) ev = Exit r inst tr /\ at_rest inst)
  /\ (forall L evs, stack L = [] ->
        exists inst tr, deliver G evs (Some L) = Exit tt inst tr /\ at_rest inst).
Proof.
  split; [|split; [|split]].
  - intros name args h. rewrite callback_spec. cbv zeta.
    destruct (luaV_gettable _ name h) as [cb h1 t1|e h1 t1]; [|eauto].
    destruct (is_nil cb); [eauto|].
    destruct (luaD_call cb _ h1); eauto.
  - intros path args L tr. rewrite start_spec.
    destruct (LUA_EXTRASPACE <? sizeof_glirc_ptr); [discriminate|].
    destruct (negb newstate_ok); [discriminate|].
    destruct version_error; [discriminate|]. cbv zeta.
    destruct (loadfile _); [|discriminate].
    destruct (luaD_call _ _ _) as [rs h' t|e h' t].
    + intros H. injection H as <- _. reflexivity.
    + destruct (tostring_value e); discriminate.
  - intros L ev HL. apply (handle_at_rest G (Some L) ev HL).
  - intros L evs HL. apply (deliver_at_rest G evs (Some L) HL).
Qed.

(** *** The [arg] table *)

Lemma filled_get (rest : list string) (t : table) (i : Z) :
  tget (filled rest t) (LInt i)
  = if i =? 1 then match last rest with
                   | Some a => LStr a
                   | None => tget t (LInt 1)
                   end
    else tget t (LInt i).
Proof.
  unfold filled. revert t. induction rest as [|a rest IH]; intros t.
  - cbn [fold_left last]. destruct (i =? 1) eqn:Hi; [|reflexivity].
    apply Z.eqb_eq in Hi. rewrite Hi. reflexivity.
  - cbn [fold_left]. rewrite IH. cbn [rawset_int tget].
    destruct (i =? 1) eqn:Hi; [|reflexivity].
    rewrite Z.eqb_refl.
    destruct rest as [|b rest]; [reflexivity|].
    change (last (a :: b :: rest)) with (last (b :: rest)).
    destruct (last (b :: rest)) eqn:Hl; [reflexivity|].
    apply last_None in Hl. discriminate.
Qed.

(** What the loop of [start] and lines 41 to 43 of the file leave in
    [arg]: the script path at 0, the last argument at 1 when there are
    at least two arguments, and nothing anywhere else. *)
Lemma arg_table_contents (G : glirc) (path : string) (args : list string) (i : Z) :
  arg_index (arg_heap G path args) i
  = if i =? 0 then LStr (script_path G path args)
    else if i =? 1 then match last (drop 1 args) with
                        | Some a => LStr a
                        | None => LNil
                        end
    else LNil.
Proof.
  assert (Hreg : registry (arg_heap G path args) (LInt LUA_RIDX_GLOBALS) = LTab 0)
    by reflexivity.
  assert (H0 : table_of (arg_heap G path args) 0
               = rawset_str empty_table "arg" (LTab 1))
    by (unfold arg_heap; apply table_of_insert).
  assert (H1 : table_of (arg_heap G path args) 1
               = rawset_int (filled (drop 1 args) empty_table) 0
                   (LStr (script_path G path args))).
  { unfold arg_heap, table_of. cbn [tables set_tables].
    rewrite lookup_insert_ne by discriminate. rewrite lookup_insert_eq.
    reflexivity. }
  unfold arg_index, global. rewrite Hreg, H0.
  change (tget (rawset_str empty_table "arg" (LTab 1)) (LStr "arg")) with (LTab 1).
  cbv iota. rewrite H1. cbn [rawset_int tget].
  destruct (i =? 0); [reflexivity|].
  rewrite filled_get. destruct (i =? 1); [|reflexivity].
  destruct (last (drop 1 args)); reflexivity.
Qed.

(** *** The failure paths of [start] *)

(** When the extra space of the interpreter cannot hold the host token,
    [start] reports so and returns NULL before any interpreter is asked
    for, whatever the allocator would have done. *)
Theorem start_extraspace_too_small (G : glirc) (path : string) (args : list string) :
  (LUA_EXTRASPACE <? sizeof_glirc_ptr) = true ->
  start G path args
  = Exit tt None [EvPrint G ERROR_MESSAGE (Some "Lua extraspace too small")].
Proof. intros Hx. unfold start. rewrite Hx. reflexivity. Qed.

(** When the version check of [initialize_lua] fails, [start] reports
    its message, closes the interpreter and returns NULL; the loader is
    never asked and no script code runs. *)
Theorem start_version_mismatch (G : glirc) (path : string) (args : list string)
  (m : string) :
  (LUA_EXTRASPACE <? sizeof_glirc_ptr) = false ->
  newstate_ok = true ->
  version_error = Some m ->
  start G path args
  = Exit tt None [EvPrint G ERROR_MESSAGE (Some (cstring m)); EvClose].
Proof.
  intros Hx Hn Hv. rewrite start_spec, Hx, Hn, Hv. reflexivity.
Qed.

(** When the script cannot be loaded, [start] reports the loader's
    message up to its first NUL byte, closes the interpreter and
    returns NULL; no script code runs. *)
Theorem start_load_failure (G : glirc) (path : string) (args : list string)
  (msg : string) :
  (LUA_EXTRASPACE <? sizeof_glirc_ptr) = false ->
  newstate_ok = true ->
  version_error = None ->
  loadfile (script_path G path args) = inr msg ->
  start G path args
  = Exit tt None
      [EvLoadFile (script_path G path args);
       EvPrint G ERROR_MESSAGE (Some (cstring msg));
       EvClose].
Proof.
  intros Hx Hn Hv Hl. rewrite start_spec, Hx, Hn, Hv. cbn [negb]. cbv zeta.
  rewrite Hl. reflexivity.
Qed.

(** When the script raises a string or a number at top level, [start]
    reports its text up to the first NUL byte, once, after whatever
    the script did, then closes the interpreter and returns NULL. *)
Theorem start_script_error_text (G : glirc) (path : string) (args : list string)
  (chunk e : value) (h' : heap) (tr : list event) (text : string) :
  (LUA_EXTRASPACE <? sizeof_glirc_ptr) = false ->
  newstate_ok = true ->
  version_error = None ->
  loadfile (script_path G path args) = inl chunk ->
  luaD_call chunk [] (script_heap G path args) = HRaised e h' tr ->
  tostring_value e = Some text ->
  start G path args
  = Exit tt None
      (EvLoadFile (script_path G path args)
       :: tr ++ [EvPrint G ERROR_MESSAGE (Some (cstring text)); EvClose])
  /\ reports (entry_trace (start G path args))
     = [EvPrint G ERROR_MESSAGE (Some (cstring text))].
Proof.
  intros Hx Hn Hv Hl Hc He.
  assert (Hs : start G path args
               = Exit tt None
                   (EvLoadFile (script_path G path args)
                    :: tr ++ [EvPrint G ERROR_MESSAGE (Some (cstring text)); EvClose])).
  { rewrite start_spec, Hx, Hn, Hv. cbn [negb]. cbv zeta.
    rewrite Hl, Hc, He. reflexivity. }
  split; [exact Hs|]. rewrite Hs. cbn [entry_trace].
  pose proof (luaD_call_script chunk [] (script_heap G path args)) as Ht.
  rewrite Hc in Ht. cbn [hres_trace] in Ht. apply script_not_report in Ht.
  unfold reports in *. cbn [List.filter is_report].
  rewrite List.filter_app, Ht. reflexivity.
Qed.

(** When the script raises at top level a value that is neither a
    string nor a number, the message [start] takes from the stack is
    NULL and [strlen] is applied to it: the behaviour is undefined, and
    nothing has been reported or closed by then. *)
Theorem start_script_error_without_text (G : glirc) (path : string)
  (args : list string) (chunk e : value) (h' : heap) (tr : list event) :
  (LUA_EXTRASPACE <? sizeof_glirc_ptr) = false ->
  newstate_ok = true ->
  version_error = None ->
  loadfile (script_path G path args) = inl chunk ->
  luaD_call chunk [] (script_heap G path args) = HRaised e h' tr ->
  tostring_value e = None ->
  start G path args = Crash (EvLoadFile (script_path G path args) :: tr)
  /\ reports (entry_trace (start G path args)) = []
  /\ ~ In EvClose (entry_trace (start G path args)).
Proof.
  intros Hx Hn Hv Hl Hc He.
  assert (Hs : start G path args
               = Crash (EvLoadFile (script_path G path args) :: tr)).
  { rewrite start_spec, Hx, Hn, Hv. cbn [negb]. cbv zeta.
    rewrite Hl, Hc, He. reflexivity. }
  pose proof (luaD_call_script chunk [] (script_heap G path args)) as Ht.
  rewrite Hc in Ht. cbn [hres_trace] in Ht.
  split; [exact Hs|]. rewrite Hs. cbn [entry_trace]. split.
  - unfold reports. cbn [List.filter is_report]. apply script_not_report, Ht.
  - intros [H|H]; [discriminate|].
    apply script_not_close in Ht. rewrite Forall_forall in Ht.
    apply list_elem_of_In, Ht in H. discriminate.
Qed.

(** *** The call of the script *)

Lemma script_calls_of_host_calls (cs : list host_call) :
  script_calls (map EvScript cs) = [].
Proof. induction cs as [|c cs IH]; [reflexivity|exact IH]. Qed.

Lemma luaD_call_function (f : value) (args : list value) (h : heap) :
  is_function f = true ->
  exists cs, hres_trace (luaD_call f args h) = EvCall f args h :: map EvScript cs.
Proof.
  intros Hf. unfold luaD_call, call_function. rewrite Hf.
  destruct (exec f args h) as [rs h' cs|e h' cs]; exists cs; reflexivity.
Qed.

Lemma start_trace_of_script (G : glirc) (path : string) (args : list string)
  (chunk : value) :
  (LUA_EXTRASPACE <? sizeof_glirc_ptr) = false ->
  newstate_ok = true ->
  version_error = None ->
  loadfile (script_path G path args) = inl chunk ->
  exists rest,
    entry_trace (start G path args)
    = EvLoadFile (script_path G path args)
      :: hres_trace (luaD_call chunk [] (script_heap G path args)) ++ rest
    /\ script_calls rest = [].
Proof.
  intros Hx Hn Hv Hl. rewrite start_spec, Hx, Hn, Hv. cbn [negb]. cbv zeta.
  rewrite Hl.
  destruct (luaD_call chunk [] _) as [rs h' tr|e h' tr]; cbn [hres_trace].
  - exists []. rewrite app_nil_r. auto.
  - destruct (tostring_value e); cbn [entry_trace].
    + eexists. split; reflexivity.
    + exists []. rewrite app_nil_r. auto.
Qed.

(** When the script loads, [start] calls it exactly once, with no
    argument at all, whether it then returns or raises. *)
Theorem start_calls_script_once (G : glirc) (path : string) (args : list string)
  (chunk : value) :
  (LUA_EXTRASPACE <? sizeof_glirc_ptr) = false ->
  newstate_ok = true ->
  version_error = None ->
  loadfile (script_path G path args) = inl chunk ->
  is_function chunk = true ->
  script_calls (entry_trace (start G path args))
  = [EvCall chunk [] (script_heap G path args)].
Proof.
  intros Hx Hn Hv Hl Hf.
  destruct (start_trace_of_script G path args chunk Hx Hn Hv Hl) as (rest & -> & Hr).
  destruct (luaD_call_function chunk [] (script_heap G path args) Hf) as [cs ->].
  unfold script_calls in *. cbn [List.filter is_call app].
  rewrite List.filter_app, Hr, app_nil_r.
  f_equal. apply script_calls_of_host_calls.
Qed.

(** The heap the script is called on is what the two library
    installers make of a heap in which the host token sits in the extra
    space, no callback module is registered yet, [arg] is the only
    global, and [arg[0]] is the script path. *)
Theorem script_entry_heap_contents (G : glirc) (path : string) (args : list string)
  (chunk : value) :
  (LUA_EXTRASPACE <? sizeof_glirc_ptr) = false ->
  newstate_ok = true ->
  version_error = None ->
  loadfile (script_path G path args) = inl chunk ->
  is_function chunk = true ->
  exists h0,
    first_call_heap (entry_trace (start G path args))
    = Some (glirc_lib (std_libs h0))
    /\ extraspace h0 = Some G
    /\ callback_module h0 = LNil
    /\ arg_index h0 0 = LStr (script_path G path args)
    /\ (exists a, global h0 "arg" = LTab a)
    /\ (forall name, name <> "arg"%string -> global h0 name = LNil).
Proof.
  intros Hx Hn Hv Hl Hf. exists (arg_heap G path args).
  split; [|split; [|split; [|split; [|split]]]].
  - destruct (start_trace_of_script G path args chunk Hx Hn Hv Hl) as (rest & -> & _).
    destruct (luaD_call_function chunk [] (script_heap G path args) Hf) as [cs ->].
    reflexivity.
  - reflexivity.
  - reflexivity.
  - rewrite arg_table_contents. reflexivity.
  - exists 1%nat. reflexivity.
  - intros name Hname.
    assert (H0 : table_of (arg_heap G path args) 0
                 = rawset_str empty_table "arg" (LTab 1))
      by (unfold arg_heap; apply table_of_insert).
    unfold global.
    change (registry (arg_heap G path args) (LInt LUA_RIDX_GLOBALS)) with (LTab 0).
    cbv iota. rewrite H0. cbn [rawset_str tget empty_table].
    destruct (String.eqb_spec name "arg"); [contradiction|reflexivity].
Qed.

(** On success [start] changes nothing in the heap the script left but
    the registry slot of the callback module. *)
Theorem start_touches_only_module_slot (G : glirc) (path : string)
  (args : list string) (chunk : value) (rs : list value) (h' : heap)
  (tr : list event) :
  (LUA_EXTRASPACE <? sizeof_glirc_ptr) = false ->
  newstate_ok = true ->
  version_error = None ->
  loadfile (script_path G path args) = inl chunk ->
  luaD_call chunk [] (script_heap G path args) = HDone rs h' tr ->
  exists L trace,
    start G path args = Exit tt (Some L) trace
    /\ tables (mem L) = tables h'
    /\ basic_meta (mem L) = basic_meta h'
    /\ extraspace (mem L) = extraspace h'
    /\ hidden (mem L) = hidden h'
    /\ forall k, k <> LLight glirc_callback_module_key ->
         registry (mem L) k = registry h' k.
Proof.
  intros Hx Hn Hv Hl Hc.
  exists (mkState [] (store_module h' (hd LNil rs))),
         (EvLoadFile (script_path G path args) :: tr).
  split; [|repeat split].
  - rewrite start_spec, Hx, Hn, Hv. cbn [negb]. cbv zeta. rewrite Hl, Hc. reflexivity.
  - intros k Hk. unfold store_module. cbn [mem registry set_registry].
    destruct k; try reflexivity.
    destruct (Z.eqb_spec p glirc_callback_module_key) as [->|]; [|reflexivity].
    contradiction.
Qed.

(** *** How a dispatch finds and calls the callback *)

Lemma is_function_not_nil (v : value) : is_function v = true -> is_nil v = false.
Proof. destruct v; cbn; congruence. Qed.

Lemma luaV_gettable_own_field (h : heap) (r : nat) (key cb : value) :
  tget (table_of h r) key = cb -> is_nil cb = false ->
  luaV_gettable (LTab r) key h = HDone cb h [].
Proof.
  intros Hk Hn. unfold luaV_gettable, fastget. rewrite Hk, Hn. reflexivity.
Qed.

Lemma luaV_finishget_inherited (n : nat) (h : heap) (r p : nat) (key cb : value) :
  luaT_gettmbyobj h (LTab r) "__index" = LTab p ->
  tget (table_of h p) key = cb -> is_nil cb = false ->
  luaV_finishget (S n) (LTab r) key h = HDone cb h [].
Proof.
  intros Hm Hp Hn. cbn [luaV_finishget]. rewrite Hm. cbn [is_nil is_function].
  unfold fastget. rewrite Hp, Hn. reflexivity.
Qed.

Lemma luaV_gettable_inherited (h : heap) (r p : nat) (key cb : value) :
  tget (table_of h r) key = LNil ->
  luaT_gettmbyobj h (LTab r) "__index" = LTab p ->
  tget (table_of h p) key = cb -> is_nil cb = false ->
  luaV_gettable (LTab r) key h = HDone cb h [].
Proof.
  intros Hk Hm Hp Hn. unfold luaV_gettable, fastget. rewrite Hk. cbn [is_nil].
  rewrite MAXTAGLOOP_succ. apply (luaV_finishget_inherited _ h r p); assumption.
Qed.

Lemma luaV_finishget_not_indexable (n : nat) (h : heap) (m key : value) :
  type_of m <> LUA_TTABLE ->
  luaT_gettmbyobj h m "__index" = LNil ->
  luaV_finishget (S n) m key h
  = HRaised (LStr ("attempt to index a " ++ luaT_objtypename h m ++ " value")%string)
      h [].
Proof.
  intros Ht Hm. cbn [luaV_finishget]. rewrite Hm. cbn [is_nil].
  destruct m; try reflexivity. exfalso. apply Ht. reflexivity.
Qed.

Lemma luaV_gettable_not_indexable (h : heap) (m key : value) :
  type_of m <> LUA_TTABLE ->
  luaT_gettmbyobj h m "__index" = LNil ->
  luaV_gettable m key h
  = HRaised (LStr ("attempt to index a " ++ luaT_objtypename h m ++ " value")%string)
      h [].
Proof.
  intros Ht Hm. unfold luaV_gettable.
  assert (Hf : fastget h m key = None)
    by (destruct m; try reflexivity; exfalso; apply Ht; reflexivity).
  rewrite Hf, MAXTAGLOOP_succ. apply luaV_finishget_not_indexable; assumption.
Qed.

Lemma script_calls_after_dispatch (G : glirc) (L : lua_State) (ev : host_event)
  (ext cb : value) :
  let h := (marshalled ev (mem L)).1 in
  let args := (marshalled ev (mem L)).2 in
  stack L = [] ->
  callback_module h = ext ->
  luaV_gettable ext (LStr (event_name ev)) h = HDone cb h [] ->
  is_function cb = true ->
  script_calls (entry_trace (handle G (Some L) ev)) = [EvCall cb (ext :: args) h].
Proof.
  cbv zeta. intros HL He Hg Hf.
  rewrite (handle_spec G L ev HL). cbv zeta.
  rewrite He, Hg, (is_function_not_nil cb Hf).
  destruct (luaD_call_function cb (ext :: (marshalled ev (mem L)).2)
              (marshalled ev (mem L)).1 Hf) as [cs Hcs].
  destruct (luaD_call cb _ _) as [rs h2 t2|e h2 t2];
    cbn [hres_trace] in Hcs; subst t2; cbn [entry_trace app];
    unfold script_calls; cbn [List.filter is_call];
    rewrite !List.filter_app;
    change (List.filter is_call (map EvScript cs)) with (script_calls (map EvScript cs));
    rewrite script_calls_of_host_calls;
    destruct (is_stop ev); reflexivity.
Qed.

(** A callback that is a function field of the module table is called
    exactly once per event, with the module itself as first argument
    and the marshalled payload after it (nothing after it for stop), on
    the heap the marshalling left. *)
Theorem dispatch_passes_module_first (G : glirc) (L : lua_State) (ev : host_event)
  (r : nat) (cb : value) :
  let h := (marshalled ev (mem L)).1 in
  let args := (marshalled ev (mem L)).2 in
  stack L = [] ->
  callback_module h = LTab r ->
  tget (table_of h r) (LStr (event_name ev)) = cb ->
  is_function cb = true ->
  script_calls (entry_trace (handle G (Some L) ev)) = [EvCall cb (LTab r :: args) h].
Proof.
  cbv zeta. intros HL He Hk Hf.
  apply (script_calls_after_dispatch G L ev (LTab r) cb HL He); [|exact Hf].
  apply luaV_gettable_own_field; [exact Hk|apply is_function_not_nil, Hf].
Qed.

(** A callback the module table does not hold itself but inherits from
    the table under [__index] of its metatable is found and called all
    the same, and its first argument is the module, not the parent. *)
Theorem dispatch_finds_inherited_callback (G : glirc) (L : lua_State)
  (ev : host_event) (r p : nat) (cb : value) :
  let h := (marshalled ev (mem L)).1 in
  let args := (marshalled ev (mem L)).2 in
  stack L = [] ->
  callback_module h = LTab r ->
  tget (table_of h r) (LStr (event_name ev)) = LNil ->
  luaT_gettmbyobj h (LTab r) "__index" = LTab p ->
  tget (table_of h p) (LStr (event_name ev)) = cb ->
  is_function cb = true ->
  script_calls (entry_trace (handle G (Some L) ev)) = [EvCall cb (LTab r :: args) h].
Proof.
  cbv zeta. intros HL He Hk Hm Hp Hf.
  apply (script_calls_after_dispatch G L ev (LTab r) cb HL He); [|exact Hf].
  apply (luaV_gettable_inherited _ r p); auto using is_function_not_nil.
Qed.

(** When the callback module is not a table and has no [__index]
    metamethod, every event is answered PASS_MESSAGE (nothing, for
    command and stop) with the one report "attempt to index a ...
    value", where the value is named as [luaT_objtypename] names it; no
    script code runs and the heap is the one the marshalling left. *)
Theorem dispatch_on_non_table_module (G : glirc) (L : lua_State) (ev : host_event) :
  let h := (marshalled ev (mem L)).1 in
  stack L = [] ->
  type_of (callback_module h) <> LUA_TTABLE ->
  luaT_gettmbyobj h (callback_module h) "__index" = LNil ->
  handle G (Some L) ev
  = Exit (if bears_decision ev then Some PASS_MESSAGE else None)
         (if is_stop ev then None else Some (mkState [] h))
         ([EvPrint G ERROR_MESSAGE
             (Some ("attempt to index a "
                    ++ luaT_objtypename h (callback_module h) ++ " value")%string)]
          ++ (if is_stop ev then [EvClose] else [])).
Proof.
  cbv zeta. intros HL Ht Hm.
  rewrite (handle_spec G L ev HL). cbv zeta.
  rewrite (luaV_gettable_not_indexable _ _ _ Ht Hm). reflexivity.
Qed.

(** When the field of the module table is neither nil nor a function
    and has no [__call] metamethod, the event is answered PASS_MESSAGE
    (nothing, for command and stop) with the one report "attempt to
    call a ... value", where the field is named as [luaT_objtypename]
    names it; no script code runs. *)
Theorem dispatch_on_non_callable_field (G : glirc) (L : lua_State)
  (ev : host_event) (r : nat) (cb : value) :
  let h := (marshalled ev (mem L)).1 in
  stack L = [] ->
  callback_module h = LTab r ->
  tget (table_of h r) (LStr (event_name ev)) = cb ->
  is_nil cb = false ->
  is_function cb = false ->
  is_function (luaT_gettmbyobj h cb "__call") = false ->
  handle G (Some L) ev
  = Exit (if bears_decision ev then Some PASS_MESSAGE else None)
         (if is_stop ev then None else Some (mkState [] h))
         ([EvPrint G ERROR_MESSAGE
             (Some ("attempt to call a " ++ luaT_objtypename h cb ++ " value")%string)]
          ++ (if is_stop ev then [EvClose] else [])).
Proof.
  cbv zeta. intros HL He Hk Hn Hf Hc.
  rewrite (handle_spec G L ev HL). cbv zeta.
  rewrite He, (luaV_gettable_own_field _ r _ cb Hk Hn), Hn.
  unfold luaD_call. rewrite Hf, Hc. reflexivity.
Qed.

(** *** What a dispatch emits *)

Lemma script_no_close (tr : list event) :
  Forall (fun e => is_script e = true) tr -> List.filter is_close tr = [].
Proof.
  induction 1 as [|e tr He _ IH]; [reflexivity|].
  destruct e; cbn in He; try discriminate; exact IH.
Qed.

(** The events of one call on an instance at rest are, in this order:
    events of script code, at most one report of the bridge, and the
    close of the interpreter if and only if the call is a stop.  So a
    dispatch never loads a file, reports at most once, and only a stop
    closes, once and last. *)
Theorem dispatch_trace_shape (G : glirc) (L : lua_State) (ev : host_event) :
  stack L = [] ->
  exists script report,
    entry_trace (handle G (Some L) ev)
    = script ++ report ++ (if is_stop ev then [EvClose] else [])
    /\ Forall (fun e => is_script e = true) script
    /\ (report = [] \/ exists msg, report = [EvPrint G ERROR_MESSAGE msg])
    /\ loaded_paths (entry_trace (handle G (Some L) ev)) = []
    /\ List.filter is_close (entry_trace (handle G (Some L) ev))
       = (if is_stop ev then [EvClose] else []).
Proof.
  intros HL.
  assert (Hshape : exists script report,
             entry_trace (handle G (Some L) ev)
             = script ++ report ++ (if is_stop ev then [EvClose] else [])
             /\ Forall (fun e => is_script e = true) script
             /\ (report = [] \/ exists msg, report = [EvPrint G ERROR_MESSAGE msg])).
  { rewrite (handle_spec G L ev HL). cbv zeta.
    pose proof (luaV_gettable_script (callback_module (marshalled ev (mem L)).1)
                  (LStr (event_name ev)) (marshalled ev (mem L)).1) as H1.
    destruct (luaV_gettable _ _ _) as [cb h1 t1|e h1 t1]; cbn [hres_trace] in H1.
    - destruct (is_nil cb).
      + exists t1, []. cbn [entry_trace]. auto.
      + pose proof (luaD_call_script cb
                      (callback_module (marshalled ev (mem L)).1
                       :: (marshalled ev (mem L)).2) h1) as H2.
        destruct (luaD_call cb _ h1) as [rs h2 t2|e h2 t2]; cbn [hres_trace] in H2.
        * exists (t1 ++ t2), []. cbn [entry_trace].
          split; [reflexivity|]. split; [apply Forall_app; auto|auto].
        * exists (t1 ++ t2), [EvPrint G ERROR_MESSAGE (tostring_value e)].
          cbn [entry_trace]. split; [rewrite <- !app_assoc; reflexivity|].
          split; [apply Forall_app; auto|eauto].
    - exists t1, [EvPrint G ERROR_MESSAGE (tostring_value e)].
      cbn [entry_trace]. split; [rewrite <- !app_assoc; reflexivity|]. eauto. }
  destruct Hshape as (script & report & Htr & Hs & Hr).
  exists script, report. split; [exact Htr|]. split; [exact Hs|]. split; [exact Hr|].
  rewrite Htr, !loaded_paths_app, !List.filter_app.
  rewrite (script_loads_nothing _ Hs), (script_no_close _ Hs).
  destruct Hr as [->|[msg ->]]; destruct (is_stop ev); auto.
Qed.

(** On a NULL instance, which is what a failed [start] and a stop
    leave, every entry point returns at once: any sequence of calls
    answers without a single event and the instance stays NULL. *)
Theorem null_instance_is_inert (G : glirc) (evs : list host_event) :
  deliver G evs None = Exit tt None []
  /\ forall ev, handle G None ev
                = Exit (if bears_decision ev then Some PASS_MESSAGE else None) None [].
Proof.
  split.
  - induction evs as [|ev evs IH]; [reflexivity|].
    cbn [deliver]. destruct ev; cbn [handle message_entrypoint chat_entrypoint
      command_entrypoint stop_entrypoint entry_map is_stop]; try rewrite IH; reflexivity.
  - intros []; reflexivity.
Qed.

End Properties.

(** * The bridge at work in the demo world *)

Section DemoRuns.

#[local] Existing Instance demo_types.

(** C1: with the arguments num.lua, a, b, the [arg] table a script finds
    when it is first called holds the resolved script path at 0 and
    the last argument, b, at 1; a is lost and index 2 is empty, because
    the loop of [start] writes every argument to index 1. *)
Theorem arg_keeps_last_argument_only :
  exists h,
    first_call_heap
      (entry_trace (start (E := demo_env true) 7 "/ext/glirc-lua.so"
                      ["num.lua"; "a"; "b"])) = Some h
    /\ arg_index h 0 = LStr "/cfg/num.lua"
    /\ arg_index h 1 = LStr "b"
    /\ arg_index h 2 = LNil.
Proof.
  eexists. split; [vm_compute; reflexivity|].
  vm_compute. auto.
Qed.

(** A script that returns the number 42 is accepted: [start] returns a
    live instance whose callback module is 42 and reports nothing. *)
Lemma start_accepts_number_module :
  exec (environment := demo_env true) (LFun 4) []
    (script_heap (E := demo_env true) 7 "/ext/glirc-lua.so" ["num.lua"])
  = Returns [LInt 42]
      (script_heap (E := demo_env true) 7 "/ext/glirc-lua.so" ["num.lua"]) []
  /\ type_of (LInt 42) <> LUA_TTABLE
  /\ exists L tr,
       start (E := demo_env true) 7 "/ext/glirc-lua.so" ["num.lua"]
       = Exit tt (Some L) tr
       /\ callback_module (E := demo_env true) (mem L) = LInt 42
       /\ reports tr = [].
Proof.
  split; [reflexivity|]. split; [discriminate|].
  eexists _, _. split; [vm_compute; reflexivity|].
  split; vm_compute; reflexivity.
Qed.

Lemma start_keeps_any_module_witness :
  exists L trace,
    start (E := demo_env true) 7 "/ext/glirc-lua.so" ["num.lua"]
    = Exit tt (Some L) trace
    /\ stack L = []
    /\ callback_module (E := demo_env true) (mem L) = hd LNil [LInt 42]
    /\ reports trace = []
    /\ ~ In EvClose trace.
Proof.
  eapply (start_keeps_any_module (E := demo_env true) 7 "/ext/glirc-lua.so"
            ["num.lua"] (LFun 4) [LInt 42]);
    vm_compute; reflexivity.
Defined.

(** The callback of the command event raises a table; the one report
    of the dispatch carries no text. *)
Lemma table_error_has_no_text :
  let tr := entry_trace (command_entrypoint (E := demo_env true) 7
                           (Some (demo_instance [])) "go") in
  (exists f args h r h' cs,
     script_calls tr = [EvCall f args h]
     /\ exec (environment := demo_env true) f args h = Throws (LTab r) h' cs)
  /\ reports tr = [EvPrint 7 ERROR_MESSAGE None]
  /\ ~ exists text, In (EvPrint 7 ERROR_MESSAGE (Some text)) tr.
Proof.
  cbv zeta. split; [|split].
  - eexists _, _, _, _, _, _. split; vm_compute; reflexivity.
  - vm_compute. reflexivity.
  - intros [text H]. vm_compute in H.
    destruct H as [H|[H|[]]]; discriminate.
Qed.

Lemma callback_reports_error_text_witness :
  let h := mem (demo_instance []) in
  callback (E := demo_env true) 7 (Z.of_nat (length [LStr "go"]))
    (mkState [LStr "process_command"; LStr "go"] h)
  = Done PASS_MESSAGE (mkState [] (demo_alloc h empty_table).1)
      ([] ++ [EvCall (LFun 2) [LTab 2; LStr "go"] h]
          ++ [EvPrint 7 ERROR_MESSAGE (tostring_value (E := demo_env true) (LTab 3))]).
Proof.
  refine (proj1 (callback_reports_error_text (E := demo_env true) 7
                   (LStr "process_command") [LStr "go"] (mem (demo_instance []))
                   (LFun 2) (mem (demo_instance [])) [] (LTab 3)
                   (demo_alloc (mem (demo_instance [])) empty_table).1
                   [EvCall (LFun 2) [LTab 2; LStr "go"] (mem (demo_instance []))]
                   _ _ _));
    vm_compute; reflexivity.
Defined.

Lemma report_precedes_close_witness :
  exists pre msg,
    entry_trace (start (E := demo_env true) 7 "/ext/glirc-lua.so" ["zz.lua"])
    = pre ++ [EvPrint 7 ERROR_MESSAGE msg; EvClose]
    /\ Forall (fun e => is_close e = false) pre.
Proof.
  apply (proj2 (proj2 (report_precedes_close (E := demo_env true) 7
                         "/ext/glirc-lua.so" ["zz.lua"] None))).
  vm_compute. right. right. left. reflexivity.
Defined.

Lemma decision_is_truth_of_result_witness :
  let h := mem (demo_instance []) in
  exists r,
    handle (E := demo_env true) 7 (Some (demo_instance [])) (OnMessage "hi")
    = Exit (Some r) (Some (mkState [] h))
        ([] ++ [EvCall (LFun 1) [LTab 2; LStr "hi"] h])
    /\ (r = DROP_MESSAGE <-> truthy (hd LNil [LBool true]) = true)
    /\ (r = PASS_MESSAGE <-> truthy (hd LNil [LBool true]) = false).
Proof.
  refine (decision_is_truth_of_result (E := demo_env true) 7 (demo_instance [])
            (OnMessage "hi") (LFun 1) (mem (demo_instance [])) []
            [LBool true] (mem (demo_instance []))
            [EvCall (LFun 1) [LTab 2; LStr "hi"] (mem (demo_instance []))]
            _ _ _ _ _);
    vm_compute; reflexivity.
Defined.

Lemma absent_callback_is_no_op_witness :
  let h := mem (lab_instance ["mod.lua"]) in
  handle (E := lab_env 8 None) 7 (Some (lab_instance ["mod.lua"])) (OnCommand "c")
  = Exit None (Some (mkState [] h)) ([] ++ [])
  /\ reports ([] ++ []) = ([] : list event)
  /\ script_calls ([] ++ []) = script_calls ([] : list event).
Proof.
  cbv zeta.
  refine (absent_callback_is_no_op (E := lab_env 8 None) 7
            (lab_instance ["mod.lua"]) (OnCommand "c")
            (mem (lab_instance ["mod.lua"])) [] _ _);
    vm_compute; reflexivity.
Defined.


Lemma start_script_path_witness :
  push_scriptname (E := demo_env true) "/ext/glirc-lua.so" []
    (mkState [] (set_extraspace (new_heap (E := demo_env true)) 7))
  = Done tt (mkState ([] ++ [LStr "/ext/glirc.lua"])
               (set_extraspace (new_heap (E := demo_env true)) 7)) [].
Proof.
  apply (proj1 (start_script_path (E := demo_env true) 7 "/ext/glirc-lua.so" [])).
  reflexivity.
Defined.

Lemma stack_is_empty_between_events_witness :
  exists inst tr,
    deliver (E := demo_env true) 7
      [OnMessage "a"; OnCommand "b"; OnChat "c"; OnStop]
      (Some (demo_instance []))
    = Exit tt inst tr /\ at_rest inst.
Proof.
  apply (proj2 (proj2 (proj2 (stack_is_empty_between_events (E := demo_env true) 7)))).
  vm_compute. reflexivity.
Defined.

Lemma start_without_interpreter_witness :
  start (E := demo_env false) 7 "/ext/glirc-lua.so" []
  = Exit tt None
      [EvPrint 7 ERROR_MESSAGE (Some "Failed to allocate Lua interpreter")].
Proof.
  apply (start_without_interpreter (E := demo_env false)); reflexivity.
Defined.

(** The failure paths of [start], in the second world. *)

Lemma start_extraspace_too_small_witness :
  start (E := lab_env 4 None) 7 "/lab/glirc-lua.so" ["mod.lua"]
  = Exit tt None [EvPrint 7 ERROR_MESSAGE (Some "Lua extraspace too small")].
Proof.
  apply (start_extraspace_too_small (E := lab_env 4 None)). reflexivity.
Defined.

Lemma start_version_mismatch_witness :
  start (E := lab_env 8 (Some "version mismatch")) 7 "/lab/glirc-lua.so" ["mod.lua"]
  = Exit tt None
      [EvPrint 7 ERROR_MESSAGE (Some (cstring "version mismatch")); EvClose].
Proof.
  apply (start_version_mismatch (E := lab_env 8 (Some "version mismatch")));
    reflexivity.
Defined.

Lemma start_load_failure_witness :
  start (E := demo_env true) 7 "/ext/glirc-lua.so" ["zz.lua"]
  = Exit tt None
      [EvLoadFile (script_path (E := demo_env true) 7 "/ext/glirc-lua.so" ["zz.lua"]);
       EvPrint 7 ERROR_MESSAGE (Some (cstring "cannot open /cfg/zz.lua"));
       EvClose].
Proof.
  apply (start_load_failure (E := demo_env true)); reflexivity.
Defined.

Lemma start_script_error_text_witness :
  let sp := script_path (E := lab_env 8 None) 7 "/lab/glirc-lua.so" ["raise.lua"] in
  let sh := script_heap (E := lab_env 8 None) 7 "/lab/glirc-lua.so" ["raise.lua"] in
  let text := ("boom" ++ String Ascii.zero "tail")%string in
  start (E := lab_env 8 None) 7 "/lab/glirc-lua.so" ["raise.lua"]
  = Exit tt None
      (EvLoadFile sp
       :: [EvCall (LFun 10) [] sh]
          ++ [EvPrint 7 ERROR_MESSAGE (Some (cstring text)); EvClose])
  /\ reports (entry_trace (start (E := lab_env 8 None) 7 "/lab/glirc-lua.so"
                             ["raise.lua"]))
     = [EvPrint 7 ERROR_MESSAGE (Some (cstring text))].
Proof.
  cbv zeta.
  refine (start_script_error_text (E := lab_env 8 None) 7 "/lab/glirc-lua.so"
            ["raise.lua"] (LFun 10) (LStr ("boom" ++ String Ascii.zero "tail")%string)
            (script_heap (E := lab_env 8 None) 7 "/lab/glirc-lua.so" ["raise.lua"])
            [EvCall (LFun 10) []
               (script_heap (E := lab_env 8 None) 7 "/lab/glirc-lua.so" ["raise.lua"])]
            ("boom" ++ String Ascii.zero "tail")%string _ _ _ _ _ _);
    vm_compute; reflexivity.
Defined.

Lemma start_script_error_without_text_witness :
  let sp := script_path (E := lab_env 8 None) 7 "/lab/glirc-lua.so" ["table.lua"] in
  let sh := script_heap (E := lab_env 8 None) 7 "/lab/glirc-lua.so" ["table.lua"] in
  start (E := lab_env 8 None) 7 "/lab/glirc-lua.so" ["table.lua"]
  = Crash (EvLoadFile sp :: [EvCall (LFun 11) [] sh])
  /\ reports (entry_trace (start (E := lab_env 8 None) 7 "/lab/glirc-lua.so"
                             ["table.lua"])) = []
  /\ ~ In EvClose (entry_trace (start (E := lab_env 8 None) 7 "/lab/glirc-lua.so"
                                  ["table.lua"])).
Proof.
  cbv zeta.
  refine (start_script_error_without_text (E := lab_env 8 None) 7
            "/lab/glirc-lua.so" ["table.lua"] (LFun 11) (LTab 2)
            (demo_alloc (script_heap (E := lab_env 8 None) 7 "/lab/glirc-lua.so"
                           ["table.lua"]) empty_table).1
            [EvCall (LFun 11) []
               (script_heap (E := lab_env 8 None) 7 "/lab/glirc-lua.so" ["table.lua"])]
            _ _ _ _ _ _);
    vm_compute; reflexivity.
Defined.

Lemma start_calls_script_once_witness :
  script_calls (entry_trace (start (E := lab_env 8 None) 7 "/lab/glirc-lua.so"
                               ["mod.lua"]))
  = [EvCall (LFun 12) []
       (script_heap (E := lab_env 8 None) 7 "/lab/glirc-lua.so" ["mod.lua"])].
Proof.
  apply (start_calls_script_once (E := lab_env 8 None)); reflexivity.
Defined.

Lemma script_entry_heap_contents_witness :
  exists h0,
    first_call_heap (entry_trace (start (E := lab_env 8 None) 7 "/lab/glirc-lua.so"
                                    ["mod.lua"; "x"]))
    = Some (glirc_lib (environment := lab_env 8 None)
              (std_libs (environment := lab_env 8 None) h0))
    /\ extraspace h0 = Some 7
    /\ callback_module (E := lab_env 8 None) h0 = LNil
    /\ arg_index h0 0
       = LStr (script_path (E := lab_env 8 None) 7 "/lab/glirc-lua.so" ["mod.lua"; "x"])
    /\ (exists a, global h0 "arg" = LTab a)
    /\ (forall name, name <> "arg"%string -> global h0 name = LNil).
Proof.
  apply (script_entry_heap_contents (E := lab_env 8 None) 7 "/lab/glirc-lua.so"
           ["mod.lua"; "x"] (LFun 12)); reflexivity.
Defined.

Lemma start_touches_only_module_slot_witness :
  let sh := script_heap (E := demo_env true) 7 "/ext/glirc-lua.so" ["num.lua"] in
  exists L trace,
    start (E := demo_env true) 7 "/ext/glirc-lua.so" ["num.lua"]
    = Exit tt (Some L) trace
    /\ tables (mem L) = tables sh
    /\ basic_meta (mem L) = basic_meta sh
    /\ extraspace (mem L) = extraspace sh
    /\ hidden (mem L) = hidden sh
    /\ forall k, k <> LLight (glirc_callback_module_key (environment := demo_env true)) ->
         registry (mem L) k = registry sh k.
Proof.
  cbv zeta.
  refine (start_touches_only_module_slot (E := demo_env true) 7 "/ext/glirc-lua.so"
            ["num.lua"] (LFun 4) [LInt 42]
            (script_heap (E := demo_env true) 7 "/ext/glirc-lua.so" ["num.lua"])
            [EvCall (LFun 4) []
               (script_heap (E := demo_env true) 7 "/ext/glirc-lua.so" ["num.lua"])]
            _ _ _ _ _);
    vm_compute; reflexivity.
Defined.

(** Dispatches in both worlds. *)

Lemma dispatch_passes_module_first_witness :
  script_calls (entry_trace (handle (E := demo_env true) 7
                               (Some (demo_instance [])) (OnMessage "hi")))
  = [EvCall (LFun 1) (LTab 2 :: [LStr "hi"]) (mem (demo_instance []))].
Proof.
  refine (dispatch_passes_module_first (E := demo_env true) 7 (demo_instance [])
            (OnMessage "hi") 2 (LFun 1) _ _ _ _);
    vm_compute; reflexivity.
Defined.

Lemma dispatch_finds_inherited_callback_witness :
  script_calls (entry_trace (handle (E := lab_env 8 None) 7
                               (Some (lab_instance ["mod.lua"])) (OnChat "c")))
  = [EvCall (LFun 13) (LTab 4 :: [LStr "c"]) (mem (lab_instance ["mod.lua"]))].
Proof.
  refine (dispatch_finds_inherited_callback (E := lab_env 8 None) 7
            (lab_instance ["mod.lua"]) (OnChat "c") 4 2 (LFun 13) _ _ _ _ _ _);
    vm_compute; reflexivity.
Defined.

Lemma dispatch_on_non_table_module_witness :
  handle (E := lab_env 8 None) 7 (Some (lab_instance ["handle.lua"])) (OnCommand "c")
  = Exit None (Some (mkState [] (mem (lab_instance ["handle.lua"]))))
      ([EvPrint 7 ERROR_MESSAGE (Some "attempt to index a Handle value")] ++ []).
Proof.
  refine (dispatch_on_non_table_module (E := lab_env 8 None) 7
            (lab_instance ["handle.lua"]) (OnCommand "c") _ _ _).
  - vm_compute. reflexivity.
  - vm_compute. discriminate.
  - vm_compute. reflexivity.
Defined.

Lemma dispatch_on_non_callable_field_witness :
  handle (E := lab_env 8 None) 7 (Some (lab_instance ["named.lua"])) (OnMessage "m")
  = Exit (Some PASS_MESSAGE) (Some (mkState [] (mem (lab_instance ["named.lua"]))))
      ([EvPrint 7 ERROR_MESSAGE (Some "attempt to call a Foo value")] ++ []).
Proof.
  refine (dispatch_on_non_callable_field (E := lab_env 8 None) 7
            (lab_instance ["named.lua"]) (OnMessage "m") 4 (LTab 3) _ _ _ _ _ _);
    vm_compute; reflexivity.
Defined.

Lemma dispatch_trace_shape_witness :
  exists script report,
    entry_trace (handle (E := lab_env 8 None) 7 (Some (lab_instance ["mod.lua"])) OnStop)
    = script ++ report ++ [EvClose]
    /\ Forall (fun e => is_script e = true) script
    /\ (report = [] \/ exists msg, report = [EvPrint 7 ERROR_MESSAGE msg])
    /\ loaded_paths (entry_trace (handle (E := lab_env 8 None) 7
                                    (Some (lab_instance ["mod.lua"])) OnStop)) = []
    /\ List.filter is_close
         (entry_trace (handle (E := lab_env 8 None) 7
                         (Some (lab_instance ["mod.lua"])) OnStop))
       = [EvClose].
Proof.
  apply (dispatch_trace_shape (E := lab_env 8 None) 7 (lab_instance ["mod.lua"]) OnStop).
  vm_compute. reflexivity.
Defined.

End DemoRuns.

